(** * AI Agent Hub: the Generate and Review tabs of the front end

    A shallow embedding of the event handlers of [GenerateTab] and
    [ReviewTab] (React components of the front end) and the properties of
    the batch generation pipeline and of the review / dry-run / improve loop
    that follow from them.

    The handlers are asynchronous functions that talk to the back end with
    [fetch] and publish their outcome through React state setters.  They are
    modelled as programs of a small monad that threads the state of the
    outside world, may throw, and records every observable effect (request,
    alert, console warning, setter call) in chronological order. *)

From Stdlib Require Import NArith String Ascii Decimal.
From stdpp Require Import base list.

Set Default Proof Using "Type".
Set Warnings "-register-all".
Open Scope N_scope.
Open Scope nat_scope.

(** ** JavaScript strings and values *)

Module JS.

(** A JavaScript string is a sequence of UTF-16 code units. *)
Definition jsstring := list N.

(** A literal of the source, written as a Rocq string. *)
Definition js (s : string) : jsstring :=
  map N_of_ascii (list_ascii_of_string s).

Definition comma : N := 44%N.
Definition underscore : N := 95%N.

(** The class [\s] of regular expressions, which is also what
    [String.prototype.trim] strips: WhiteSpace and LineTerminator code
    points. *)
Definition is_space (c : N) : bool :=
  ((9 <=? c) && (c <=? 13) || (c =? 32) || (c =? 160) || (c =? 5760)
   || (8192 <=? c) && (c <=? 8202)
   || (c =? 8232) || (c =? 8233) || (c =? 8239) || (c =? 8287)
   || (c =? 12288) || (c =? 65279))%N.

Fixpoint dropWhile {A} (p : A -> bool) (l : list A) : list A :=
  match l with
  | [] => []
  | x :: l' => if p x then dropWhile p l' else l
  end.

(** [s.trim()] *)
Definition trim (s : jsstring) : jsstring :=
  rev (dropWhile is_space (rev (dropWhile is_space s))).

(** [s.replace(/\s+/g, '_')]: every maximal run of white space becomes one
    underscore.  [in_run] tells that the previous code unit was white
    space. *)
Fixpoint replace_spaces_from (in_run : bool) (s : jsstring) : jsstring :=
  match s with
  | [] => []
  | c :: s' =>
      if is_space c
      then (if in_run then replace_spaces_from true s'
            else underscore :: replace_spaces_from true s')
      else c :: replace_spaces_from false s'
  end.

Definition replace_spaces (s : jsstring) : jsstring :=
  replace_spaces_from false s.

(** [s.split(re)] for a separator [re = [cls]+] that is one or more code
    units of a class [sep]: the pieces between the maximal separator runs,
    with an empty piece in front of a leading run and after a trailing one.
    [piece] is the current piece, reversed. *)
Fixpoint split_from (sep : N -> bool) (in_run : bool) (piece : jsstring)
    (s : jsstring) : list jsstring :=
  match s with
  | [] => [rev piece]
  | c :: s' =>
      if sep c
      then (if in_run then split_from sep true piece s'
            else rev piece :: split_from sep true [] s')
      else split_from sep false (c :: piece) s'
  end.

Definition split (sep : N -> bool) (s : jsstring) : list jsstring :=
  split_from sep false [] s.

(** Values: what [JSON.parse] yields, and [undefined].  A number is carried
    by the text [String(n)] prints for it, so that [0] and [-0] are ["0"]. *)
Inductive value :=
| VUndefined
| VNull
| VBool (b : bool)
| VNum (repr : jsstring)
| VStr (s : jsstring)
| VArr (items : list value)
| VObj (fields : list (jsstring * value)).

Definition is_empty (s : jsstring) : bool :=
  match s with [] => true | _ => false end.

(** ToBoolean *)
Definition truthy (v : value) : bool :=
  match v with
  | VUndefined | VNull => false
  | VBool b => b
  | VNum r => negb (bool_decide (r = js "0") || bool_decide (r = js "NaN"))
  | VStr s => negb (is_empty s)
  | VArr _ | VObj _ => true
  end.

(** [a || b] *)
Definition or_else (a b : value) : value := if truthy a then a else b.

(** ToString, as template literals, [+] and [new Error(x)] apply it. *)
Fixpoint toStr (v : value) : jsstring :=
  match v with
  | VUndefined => js "undefined"
  | VNull => js "null"
  | VBool true => js "true"
  | VBool false => js "false"
  | VNum r => r
  | VStr s => s
  | VArr items =>
      (fix join (l : list value) : jsstring :=
         match l with
         | [] => []
         | x :: l' =>
             let sx := match x with
                       | VUndefined | VNull => []
                       | _ => toStr x
                       end in
             match l' with
             | [] => sx
             | _ => sx ++ comma :: join l'
             end
         end) items
  | VObj _ => js "[object Object]"
  end.

Fixpoint field (k : jsstring) (fs : list (jsstring * value)) : value :=
  match fs with
  | [] => VUndefined
  | (k', v) :: fs' => if bool_decide (k = k') then v else field k fs'
  end.

(** [v.k] for a [v] that is neither [null] nor [undefined], and for the
    property names these components read ([name], [feature], [test_code],
    [file_path], [detail], ...), none of which is defined on a prototype:
    only an object can have them. *)
Definition member (v : value) (k : jsstring) : value :=
  match v with
  | VObj fs => field k fs
  | _ => VUndefined
  end.

Definition nullish (v : value) : bool :=
  match v with
  | VUndefined | VNull => true
  | _ => false
  end.

(** [v?.k] *)
Definition opt_member (v : value) (k : jsstring) : value :=
  if nullish v then VUndefined else member v k.

(** Decimal rendering of a natural number ([String(n)] for a small count). *)
Fixpoint digits (d : Decimal.uint) : jsstring :=
  match d with
  | Nil => []
  | D0 d => 48%N :: digits d
  | D1 d => 49%N :: digits d
  | D2 d => 50%N :: digits d
  | D3 d => 51%N :: digits d
  | D4 d => 52%N :: digits d
  | D5 d => 53%N :: digits d
  | D6 d => 54%N :: digits d
  | D7 d => 55%N :: digits d
  | D8 d => 56%N :: digits d
  | D9 d => 57%N :: digits d
  end.

Definition nat_str (n : nat) : jsstring := digits (Nat.to_uint n).

(** What a handler can throw: an [Error] object, observed through its
    [message]. *)
Record Error := mkError { message : jsstring }.

End JS.

(** ** The browser host: the network and the effects of a handler *)

Module Host.
Import JS.

Inductive Method := GET | POST.

(** A request as [fetch] is given it.  [body] is the object handed to
    [JSON.stringify]; every POST of these components carries the header
    [Content-Type: application/json]. *)
Record Request := mkRequest {
  url : jsstring;
  method : Method;
  body : value
}.

(** [response.json()] either yields the parsed body or rejects. *)
Inductive Body :=
| Parsed (v : value)
| Unparsable (e : Error).

Record Response := mkResponse {
  ok : bool;
  content : Body
}.

(** [fetch] resolves to a response, whatever its status, or rejects (the
    network is down, the server is unreachable). *)
Inductive Outcome :=
| Resolved (r : Response)
| Rejected (e : Error).

(** The TypeErrors these handlers can run into; their wording is the
    engine's. *)
Inductive TypeErrorKind :=
| ReadOfNullish (v : value) (k : jsstring)
| NotAFunction (k : jsstring).

(** The world a handler runs in: the back end, whose state [W] evolves
    with every request, and the JavaScript engine. *)
Class World (W : Type) := {
  http : W -> Request -> Outcome * W;
  typeErrorMessage : TypeErrorKind -> jsstring
}.

(** Observable effects; [U] is the type of the setter calls of a
    component. *)
Inductive Effect (U : Type) :=
| Fetch (r : Request)
| Alert (m : jsstring)
| Warn (m : jsstring) (e : Error)
| Update (u : U).
Arguments Fetch {U} r.
Arguments Alert {U} m.
Arguments Warn {U} m e.
Arguments Update {U} u.

Inductive Res (A : Type) :=
| Ok (a : A)
| Throw (e : Error).
Arguments Ok {A} a.
Arguments Throw {A} e.

(** A handler: from the world to a result or an exception, the world
    afterwards and the effects performed, oldest first. *)
Definition M (W U A : Type) : Type := W -> Res A * W * list (Effect U).

Section Monad.
Context {W : Type} `{World W} {U : Type}.

Definition ret {A} (a : A) : M W U A := fun w => (Ok a, w, []).

Definition bind {A B} (m : M W U A) (k : A -> M W U B) : M W U B :=
  fun w =>
    match m w with
    | (Ok a, w1, l1) =>
        match k a w1 with
        | (r, w2, l2) => (r, w2, l1 ++ l2)
        end
    | (Throw e, w1, l1) => (Throw e, w1, l1)
    end.

Definition throw {A} (e : Error) : M W U A := fun w => (Throw e, w, []).

(** [try { m } catch (e) { h e }] *)
Definition try_catch {A} (m : M W U A) (h : Error -> M W U A) : M W U A :=
  fun w =>
    match m w with
    | (Ok a, w1, l1) => (Ok a, w1, l1)
    | (Throw e, w1, l1) =>
        match h e w1 with
        | (r, w2, l2) => (r, w2, l1 ++ l2)
        end
    end.

(** [try { m } finally { f }] *)
Definition finally {A} (m : M W U A) (f : M W U unit) : M W U A :=
  fun w =>
    match m w with
    | (r, w1, l1) =>
        match f w1 with
        | (Ok _, w2, l2) => (r, w2, l1 ++ l2)
        | (Throw e, w2, l2) => (Throw e, w2, l1 ++ l2)
        end
    end.

Definition emit (e : Effect U) : M W U unit := fun w => (Ok tt, w, [e]).

Definition update (u : U) : M W U unit := emit (Update u).
Definition alert (m : jsstring) : M W U unit := emit (Alert m).
Definition console_warn (m : jsstring) (e : Error) : M W U unit :=
  emit (Warn m e).

(** [await fetch(...)] *)
Definition fetch (req : Request) : M W U Response :=
  fun w =>
    match http w req with
    | (Resolved r, w1) => (Ok r, w1, [Fetch req])
    | (Rejected e, w1) => (Throw e, w1, [Fetch req])
    end.

(** [await response.json()] *)
Definition json (r : Response) : M W U value :=
  match content r with
  | Parsed v => ret v
  | Unparsable e => throw e
  end.

(** [v.k], which throws on [null] and [undefined]. *)
Definition read (v : value) (k : jsstring) : M W U value :=
  if nullish v
  then throw (mkError (typeErrorMessage (ReadOfNullish v k)))
  else ret (member v k).

(** [v?.replace(/\s+/g, '_')]: short-circuits on [null] and [undefined],
    works on a string, and throws on anything else, which has no callable
    [replace]. *)
Definition opt_replace_spaces (v : value) : M W U value :=
  match v with
  | VUndefined | VNull => ret VUndefined
  | VStr s => ret (VStr (replace_spaces s))
  | _ => throw (mkError (typeErrorMessage (NotAFunction (js "replace"))))
  end.

(** [post m w Q]: the run of [m] from the world [w] ends in a result, a
    world and effects that satisfy [Q]. *)
Definition post {A} (m : M W U A) (w : W)
    (Q : Res A -> W -> list (Effect U) -> Prop) : Prop :=
  match m w with
  | (r, w', l) => Q r w' l
  end.

End Monad.

(** The parts of a run. *)
Definition result_of {W U A} (run : Res A * W * list (Effect U)) : Res A :=
  fst (fst run).
Definition world_of {W U A} (run : Res A * W * list (Effect U)) : W :=
  snd (fst run).
Definition effects_of {W U A} (run : Res A * W * list (Effect U))
  : list (Effect U) := snd run.

Declare Scope handler_scope.
Delimit Scope handler_scope with handler.
Notation "x <- m ;; k" := (bind m (fun x => k))
  (at level 100, m at next level, k at level 200, right associativity)
  : handler_scope.
Notation "m ;; k" := (bind m (fun _ => k))
  (at level 100, k at level 200, right associativity) : handler_scope.

(** What a run did, by kind. *)
Definition requests {U} (l : list (Effect U)) : list Request :=
  flat_map (fun e => match e with Fetch r => [r] | _ => [] end) l.

Definition updates {U} (l : list (Effect U)) : list U :=
  flat_map (fun e => match e with Update u => [u] | _ => [] end) l.

End Host.

(** ** GenerateTab: the batch generation pipeline *)

Module GenerateTab.
Import JS Host.
Local Open Scope handler_scope.

Definition nl : jsstring := [10%N].

Inductive Status := StatusSuccess | StatusError.

(** An entry of [results]: the object pushed for one identifier.  A key the
    object literal does not have reads [undefined]. *)
Record GenResult := mkGenResult {
  tcId : jsstring;
  status : Status;
  testCode : value;
  testCaseName : value;
  validation : value;
  saved : bool;
  savedPath : value;
  saveError : value;
  error : value
}.

Module Progress.
Record t := mk {
  current : nat;
  total : nat;
  tcId : jsstring;
  status : jsstring
}.
End Progress.

Module SaveResult.
Record t := mk {
  success : bool;
  path : value;
  error : value
}.
End SaveResult.

(** The state of the component that the handler reads or sets. *)
Record State := mkState {
  selectedModel : jsstring;
  mdContent : jsstring;
  testCaseIds : jsstring;
  outputFolder : jsstring;
  generatedTests : list GenResult;
  isLoading : bool;
  currentProgress : Progress.t
}.

Inductive Setter :=
| setIsLoading (b : bool)
| setGeneratedTests (l : list GenResult)
| setCurrentProgress (p : Progress.t).

Definition apply_setter (st : State) (u : Setter) : State :=
  match u with
  | setIsLoading b =>
      mkState (selectedModel st) (mdContent st) (testCaseIds st)
        (outputFolder st) (generatedTests st) b (currentProgress st)
  | setGeneratedTests l =>
      mkState (selectedModel st) (mdContent st) (testCaseIds st)
        (outputFolder st) l (isLoading st) (currentProgress st)
  | setCurrentProgress p =>
      mkState (selectedModel st) (mdContent st) (testCaseIds st)
        (outputFolder st) (generatedTests st) (isLoading st) p
  end.

(** The state once React has applied the setter calls of a run. *)
Definition replay (st : State) (l : list (Effect Setter)) : State :=
  fold_left apply_setter (updates l) st.

(** The separator class of [/[,\s\n]+/]. *)
Definition is_id_separator (c : N) : bool :=
  (c =? comma)%N || is_space c || (c =? 10)%N.

Definition parseTestCaseIds (input : jsstring) : list jsstring :=
  List.filter (fun id => 0 <? length id)
    (map (fun id => trim id) (split is_id_separator input)).

(** The file name [saveTestFile] derives from its arguments, given the
    value of [testCaseName?.replace(/\s+/g, '_')]. *)
Definition filename_of (tcId : jsstring) (replaced : value) : jsstring :=
  replace_spaces tcId ++ js "_" ++ toStr (or_else replaced (VStr (js "test"))).

Definition save_url : jsstring := js "/api/test/save-file".
Definition generate_url : jsstring := js "/api/test/generate-ai".
Definition testcase_url : jsstring := js "/api/codebeamer/testcase/".

Definition testcase_request (tcId : jsstring) : Request :=
  mkRequest (testcase_url ++ tcId) GET VUndefined.

Definition save_request (folderPath filename : jsstring) (content : value)
  : Request :=
  mkRequest save_url POST
    (VObj [(js "folder_path", VStr folderPath);
           (js "filename", VStr filename);
           (js "content", content)]).

(** The [description] of the generation request: the fields of the test
    case when there is one, the bare identifier otherwise. *)
Definition description (tcId : jsstring) (testCaseData : value) : jsstring :=
  let get k := toStr (or_else (member testCaseData k) (VStr [])) in
  if truthy testCaseData
  then js "Test Case ID: " ++ tcId ++ nl
       ++ js "Name: " ++ get (js "name") ++ nl
       ++ js "Feature: " ++ get (js "feature") ++ nl
       ++ js "Precondition: " ++ get (js "precondition") ++ nl
       ++ js "Test Steps: " ++ get (js "steps") ++ nl
       ++ js "Expected Result: " ++ get (js "expected")
  else js "Generate Robot Framework test for Test Case ID: " ++ tcId.

Definition generate_request (st : State) (tcId : jsstring)
    (testCaseData : value) : Request :=
  mkRequest generate_url POST
    (VObj [(js "description", VStr (description tcId testCaseData));
           (js "test_type", VStr (js "automotive"));
           (js "model", VStr (selectedModel st));
           (js "automation_context",
            or_else (VStr (mdContent st)) VNull)]).

Definition no_test_code (tcId : jsstring) : jsstring :=
  js "*** Test Cases ***" ++ nl ++ js "# Generated for " ++ tcId ++ nl
  ++ js "# Error: No test code returned".

Definition error_test_code (tcId msg : jsstring) : jsstring :=
  js "*** Test Cases ***" ++ nl ++ js "# Error generating test for " ++ tcId
  ++ js ": " ++ msg.

(** The two progress reports of the loop body. *)
Definition generating (total i : nat) (tcId : jsstring) : Progress.t :=
  Progress.mk (i + 1) total tcId (js "Generating...").

Definition saving (total i : nat) (tcId : jsstring) : Progress.t :=
  Progress.mk (i + 1) total tcId (js "Saving...").

(** The opening report and the closing one. *)
Definition starting (tcIds : list jsstring) : Progress.t :=
  Progress.mk 0 (length tcIds) [] (js "Starting...").

Definition complete (st : State) (tcIds : list jsstring)
    (results : list GenResult) : Progress.t :=
  let savedCount := length (List.filter saved results) in
  Progress.mk (length tcIds) (length tcIds) (js "Complete!")
    (nat_str savedCount ++ js "/" ++ nat_str (length tcIds)
     ++ js " files saved to " ++ outputFolder st).

Section Handlers.
Context {W : Type} `{World W}.

Abbreviation Handler := (M W Setter).

Definition saveTestFile (folderPath tcId : jsstring)
    (content testCaseName : value) : Handler SaveResult.t :=
  replaced <- opt_replace_spaces testCaseName ;;
  let filename := filename_of tcId replaced in
  try_catch
    (response <- fetch (save_request folderPath filename content) ;;
     (if negb (ok response)
      then err <- json response ;;
           detail <- read err (js "detail") ;;
           throw (mkError
                    (toStr (or_else detail (VStr (js "Failed to save file")))))
      else ret tt) ;;
     data <- json response ;;
     file_path <- read data (js "file_path") ;;
     ret (SaveResult.mk true file_path VUndefined))
    (fun error => ret (SaveResult.mk false VUndefined (VStr (message error)))).

(** Step 1 of an iteration: the test case of CodeBeamer, or [null]. *)
Definition fetchTestCase (tcId : jsstring) : Handler value :=
  try_catch
    (tcResponse <- fetch (testcase_request tcId) ;;
     if ok tcResponse then json tcResponse else ret VNull)
    (fun e => console_warn (js "Could not fetch from CodeBeamer:") e ;;
              ret VNull).

(** The [try] statement of the loop body, for the identifier [tcId] at
    index [i] of [total]: the entry it pushes to [results]. *)
Definition attempt (st : State) (total i : nat) (tcId : jsstring)
  : Handler GenResult :=
  try_catch
    (testCaseData <- fetchTestCase tcId ;;
     response <- fetch (generate_request st tcId testCaseData) ;;
     data <- json response ;;
     test_code <- read data (js "test_code") ;;
     let testCode := or_else test_code (VStr (no_test_code tcId)) in
     let testCaseName :=
       or_else (opt_member testCaseData (js "name")) (VStr tcId) in
     update (setCurrentProgress (saving total i tcId)) ;;
     saveResult <- saveTestFile (outputFolder st) tcId testCode
                     testCaseName ;;
     ret (mkGenResult tcId StatusSuccess testCode testCaseName
            (member data (js "validation"))
            (SaveResult.success saveResult)
            (SaveResult.path saveResult)
            (SaveResult.error saveResult)
            VUndefined))
    (fun error =>
       ret (mkGenResult tcId StatusError
              (VStr (error_test_code tcId (message error)))
              VUndefined VUndefined false VUndefined VUndefined
              (VStr (message error)))).

(** The body of the [for] loop, with the [results] pushed so far. *)
Definition iteration (st : State) (total i : nat) (tcId : jsstring)
    (results : list GenResult) : Handler (list GenResult) :=
  update (setCurrentProgress (generating total i tcId)) ;;
  r <- attempt st total i tcId ;;
  let results := results ++ [r] in
  update (setGeneratedTests results) ;;
  ret results.

(** [for (let i = 0; i < tcIds.length; i++)], from index [i] on; [rest] is
    what is left of [tcIds]. *)
Fixpoint forLoop (st : State) (total i : nat) (rest : list jsstring)
    (results : list GenResult) : Handler (list GenResult) :=
  match rest with
  | [] => ret results
  | tcId :: rest' =>
      results <- iteration st total i tcId results ;;
      forLoop st total (S i) rest' results
  end.

(** What [handleGenerate] does once the request has passed its two
    checks. *)
Definition runBatch (st : State) (tcIds : list jsstring) : Handler unit :=
  update (setIsLoading true) ;;
  update (setGeneratedTests []) ;;
  update (setCurrentProgress (starting tcIds)) ;;
  results <- forLoop st (length tcIds) 0 tcIds [] ;;
  update (setIsLoading false) ;;
  update (setCurrentProgress (complete st tcIds results)).

Definition handleGenerate (st : State) : Handler unit :=
  let tcIds := parseTestCaseIds (testCaseIds st) in
  if length tcIds =? 0
  then alert (js "Please enter at least one Test Case ID")
  else if is_empty (trim (outputFolder st))
  then alert (js "Please enter Output Folder path to save generated test scripts")
  else runBatch st tcIds.

End Handlers.

(** The condition under which the Generate button is enabled. *)
Definition canGenerate (st : State) : bool :=
  (0 <? length (parseTestCaseIds (testCaseIds st)))
  && (0 <? length (trim (outputFolder st))).

(** *** Vocabulary of the properties *)

(** The retrieval of a test case fails when the request is rejected, when
    the status of the response is not ok (not found, not authorised, server
    error), or when its body cannot be parsed. *)
Definition retrieval_failed (o : Outcome) : bool :=
  match o with
  | Rejected _ => true
  | Resolved r =>
      negb (ok r) ||
      match content r with
      | Unparsable _ => true
      | Parsed _ => false
      end
  end.

(** The file name [saveTestFile] sends for an identifier and a test case
    name that is a string (or missing). *)
Definition save_filename (tcId : jsstring) (testCaseName : value) : jsstring :=
  match testCaseName with
  | VStr n => filename_of tcId (VStr (replace_spaces n))
  | _ => filename_of tcId VUndefined
  end.

(** The save request behind an entry of the results: there is one for
    every entry recorded as a success, and none for the others. *)
Definition saves_of (st : State) (r : GenResult) : list Request :=
  match status r with
  | StatusSuccess =>
      [save_request (outputFolder st)
         (save_filename (tcId r) (testCaseName r)) (testCode r)]
  | StatusError => []
  end.

(** The requests of the cycle of one occurrence of an identifier: fetch,
    generate, and save when the generation delivered.  [d] is the test
    case data the fetch ended with. *)
Definition cycle (st : State) (rd : GenResult * value) : list Request :=
  testcase_request (tcId (fst rd))
  :: generate_request st (tcId (fst rd)) (snd rd)
  :: saves_of st (fst rd).

(** The progress reports among the setter calls of a run, each with the
    number of identifiers that had finished when it was made: the length
    of the results published last ([finished] before any). *)
Fixpoint reports_from (finished : nat) (us : list Setter)
  : list (nat * Progress.t) :=
  match us with
  | [] => []
  | setGeneratedTests l :: us' => reports_from (length l) us'
  | setCurrentProgress p :: us' => (finished, p) :: reports_from finished us'
  | setIsLoading _ :: us' => reports_from finished us'
  end.

(** The results published last by the setter calls of a run ([current]
    when there is none). *)
Definition published (current : list GenResult) (us : list Setter)
  : list GenResult :=
  fold_left (fun acc u => match u with
                          | setGeneratedTests l => l
                          | _ => acc
                          end) us current.

(** The results a run has produced: those it published last, none if it
    published nothing. *)
Definition produced (l : list (Effect Setter)) : list GenResult :=
  published [] (updates l).

(** The number of finished identifiers after some setter calls. *)
Definition finished_after (finished : nat) (us : list Setter) : nat :=
  fold_left (fun acc u => match u with
                          | setGeneratedTests l => length l
                          | _ => acc
                          end) us finished.


Section Collaborators.
Context {W : Type} `{World W}.

(** What an attempt ends with: an entry for the identifier, never an
    exception; [d] is the test case data the fetch ended with and [o] the
    outcome of the fetch. *)
Definition attempt_post (st : State) (total i : nat) (id : jsstring) (w : W)
    (res : Res GenResult) (w' : W) (l : list (Effect Setter)) : Prop :=
  exists r d o w1,
    res = Ok r /\ tcId r = id /\
    http w (testcase_request id) = (o, w1) /\
    (retrieval_failed o = true -> d = VNull) /\
    requests l = cycle st (r, d) /\
    (updates l = [] \/ updates l = [setCurrentProgress (saving total i id)]) /\
    match status r with
    | StatusSuccess =>
        error r = VUndefined /\
        (exists n, testCaseName r = VStr n) /\
        if saved r
        then (exists w2 data,
                 http w2 (save_request (outputFolder st)
                            (save_filename (tcId r) (testCaseName r))
                            (testCode r))
                 = (Resolved (mkResponse true (Parsed data)), w') /\
                 savedPath r = member data (js "file_path")) /\
             saveError r = VUndefined
        else savedPath r = VUndefined /\ exists m, saveError r = VStr m
    | StatusError =>
        saved r = false /\ savedPath r = VUndefined /\
        saveError r = VUndefined /\
        exists m, error r = VStr m /\
                  testCode r = VStr (error_test_code id m)
    end.

(** The run of the loop, unrolled: from index [i], over the identifiers
    left, with [results] pushed so far, starting in the world [w]; [rs] are
    the entries it adds. *)
Inductive LoopRun (st : State) (total : nat)
  : nat -> list jsstring -> list GenResult -> W ->
    list GenResult -> W -> list (Effect Setter) -> Prop :=
| LoopRun_done i results w :
    LoopRun st total i [] results w [] w []
| LoopRun_step i id ids results w r w1 l1 rs w2 l2 :
    attempt st total i id w = (Ok r, w1, l1) ->
    LoopRun st total (S i) ids (results ++ [r]) w1 rs w2 l2 ->
    LoopRun st total i (id :: ids) results w (r :: rs) w2
      (Update (setCurrentProgress (generating total i id))
       :: l1 ++ Update (setGeneratedTests (results ++ [r])) :: l2).

(** Modelled from the spec: the save-file end point of the back end, whose
    code is not part of the front end.  Section 6 gives its interface:
    "given a root path, filename, and content, writes a file and returns
    the resolved path, or fails with a filesystem error".  So a reply with
    an ok status and a readable body carries the path, a non-empty string,
    in [file_path]. *)
Definition PersistenceContract : Prop :=
  forall (w w' : W) folderPath filename content data,
    http w (save_request folderPath filename content)
    = (Resolved (mkResponse true (Parsed data)), w') ->
    exists p, member data (js "file_path") = VStr p /\ p <> [].

End Collaborators.

End GenerateTab.

(** ** ReviewTab: dry run, improvement and its application *)

Module ReviewTab.
Import JS Host.
Local Open Scope handler_scope.

(** An entry of [uploadedFiles].  [content] starts as the text of the file
    and is whatever was applied afterwards. *)
Record UploadedFile := mkFile {
  name : jsstring;
  tcId : jsstring;
  content : value;
  size : nat
}.

Record State := mkState {
  selectedModel : jsstring;
  uploadedFiles : list UploadedFile;
  selectedFileIndex : nat;
  reviewResult : value;
  dryRunResult : value;
  improvementRequest : jsstring;
  improvedCode : value;
  isReviewing : bool;
  isDryRunning : bool;
  isImproving : bool
}.

Inductive Setter :=
| setUploadedFiles (l : list UploadedFile)
| setReviewResult (v : value)
| setDryRunResult (v : value)
| setImprovedCode (v : value)
| setIsDryRunning (b : bool)
| setIsImproving (b : bool).

Definition apply_setter (st : State) (u : Setter) : State :=
  match u with
  | setUploadedFiles l =>
      mkState (selectedModel st) l (selectedFileIndex st) (reviewResult st)
        (dryRunResult st) (improvementRequest st) (improvedCode st)
        (isReviewing st) (isDryRunning st) (isImproving st)
  | setReviewResult v =>
      mkState (selectedModel st) (uploadedFiles st) (selectedFileIndex st) v
        (dryRunResult st) (improvementRequest st) (improvedCode st)
        (isReviewing st) (isDryRunning st) (isImproving st)
  | setDryRunResult v =>
      mkState (selectedModel st) (uploadedFiles st) (selectedFileIndex st)
        (reviewResult st) v (improvementRequest st) (improvedCode st)
        (isReviewing st) (isDryRunning st) (isImproving st)
  | setImprovedCode v =>
      mkState (selectedModel st) (uploadedFiles st) (selectedFileIndex st)
        (reviewResult st) (dryRunResult st) (improvementRequest st) v
        (isReviewing st) (isDryRunning st) (isImproving st)
  | setIsDryRunning b =>
      mkState (selectedModel st) (uploadedFiles st) (selectedFileIndex st)
        (reviewResult st) (dryRunResult st) (improvementRequest st)
        (improvedCode st) (isReviewing st) b (isImproving st)
  | setIsImproving b =>
      mkState (selectedModel st) (uploadedFiles st) (selectedFileIndex st)
        (reviewResult st) (dryRunResult st) (improvementRequest st)
        (improvedCode st) (isReviewing st) (isDryRunning st) b
  end.

Definition apply_setters (st : State) (l : list Setter) : State :=
  fold_left apply_setter l st.

Definition replay (st : State) (l : list (Effect Setter)) : State :=
  apply_setters st (updates l).

(** [uploadedFiles[selectedFileIndex] || null] *)
Definition getCurrentFile (st : State) : option UploadedFile :=
  uploadedFiles st !! selectedFileIndex st.

Definition dry_run_url : jsstring := js "/api/test/dry-run".
Definition improve_url : jsstring := js "/api/test/improve".

Definition dry_run_request (file : UploadedFile) : Request :=
  mkRequest dry_run_url POST (VObj [(js "test_code", content file)]).

Definition improve_request (st : State) (file : UploadedFile) : Request :=
  mkRequest improve_url POST
    (VObj [(js "test_code", content file);
           (js "test_case_id", VStr (tcId file));
           (js "model", VStr (selectedModel st));
           (js "improvement_request", VStr (improvementRequest st))]).

(** The result [handleDryRun] builds in its [catch]. *)
Definition dry_run_failure (msg : jsstring) : value :=
  VObj [(js "success", VBool false);
        (js "output", VStr (js "Error: " ++ msg));
        (js "errors", VArr [VStr msg])].

Section Handlers.
Context {W : Type} `{World W}.

Abbreviation Handler := (M W Setter).

Definition handleDryRun (st : State) : Handler unit :=
  match getCurrentFile st with
  | None => ret tt
  | Some file =>
      update (setIsDryRunning true) ;;
      update (setDryRunResult VNull) ;;
      finally
        (try_catch
           (response <- fetch (dry_run_request file) ;;
            data <- json response ;;
            update (setDryRunResult data))
           (fun error =>
              update (setDryRunResult (dry_run_failure (message error)))))
        (update (setIsDryRunning false))
  end.

Definition handleImprove (st : State) : Handler unit :=
  match getCurrentFile st with
  | None => ret tt
  | Some file =>
      if is_empty (trim (improvementRequest st)) then ret tt
      else
        update (setIsImproving true) ;;
        update (setImprovedCode (VStr [])) ;;
        finally
          (try_catch
             (response <- fetch (improve_request st file) ;;
              data <- json response ;;
              (if negb (ok response)
               then detail <- read data (js "detail") ;;
                    throw (mkError
                             (toStr (or_else detail
                                       (VStr (js "Failed to improve test")))))
               else ret tt) ;;
              test_code <- read data (js "test_code") ;;
              update (setImprovedCode test_code))
             (fun error =>
                update (setImprovedCode
                          (VStr (js "# Error: " ++ message error)))))
          (update (setIsImproving false))
  end.

End Handlers.

(** [applyImprovement] is synchronous and talks to nobody: it is the list
    of its setter calls. *)
Definition applyImprovement (st : State) : list Setter :=
  if truthy (improvedCode st)
  then match uploadedFiles st !! selectedFileIndex st with
       | Some file =>
           let updated :=
             <[selectedFileIndex st :=
                 mkFile (name file) (tcId file) (improvedCode st) (size file)]>
               (uploadedFiles st) in
           [setUploadedFiles updated;
            setImprovedCode (VStr []);
            setReviewResult VNull;
            setDryRunResult VNull]
       | None => []
       end
  else [].

(** The setter calls that touch nothing but the improvement panel. *)
Definition improve_only (u : Setter) : Prop :=
  match u with
  | setImprovedCode _ | setIsImproving _ => True
  | _ => False
  end.

(** A dry-run result a reader can rely on: an object with a boolean
    [success], a string [output] and a list [errors]. *)
Definition structured (v : value) : bool :=
  match member v (js "success"), member v (js "output"),
        member v (js "errors") with
  | VBool _, VStr _, VArr _ => true
  | _, _, _ => false
  end.

End ReviewTab.

(** ** ReviewTab: the list of uploaded files and the review *)

Module ReviewFiles.
Import JS Host ReviewTab.
Local Open Scope handler_scope.

(** The class [[A-Za-z0-9-_]]: letters, digits, the hyphen and the
    underscore. *)
Definition is_tc_char (c : N) : bool :=
  ((65 <=? c) && (c <=? 90) || (97 <=? c) && (c <=? 122)
   || (48 <=? c) && (c <=? 57) || (c =? 45) || (c =? underscore))%N.

(** The group of [/^([A-Za-z0-9-_]+?)_/] once it holds [group] (reversed,
    not empty): the lazy quantifier stops at the first underscore that
    follows, and fails on a code unit outside the class. *)
Fixpoint tc_group_from (group : jsstring) (s : jsstring) : option jsstring :=
  match s with
  | [] => None
  | c :: s' =>
      if (c =? underscore)%N then Some (rev group)
      else if is_tc_char c then tc_group_from (c :: group) s'
      else None
  end.

(** [filename.match(/^([A-Za-z0-9-_]+?)_/)], as its group 1. *)
Definition match_tc_group (filename : jsstring) : option jsstring :=
  match filename with
  | [] => None
  | c :: s => if is_tc_char c then tc_group_from [c] s else None
  end.

(** [p] in front of [s]: what follows it. *)
Fixpoint strip_prefix (p s : jsstring) : option jsstring :=
  match p, s with
  | [], _ => Some s
  | _ :: _, [] => None
  | a :: p', b :: s' => if (a =? b)%N then strip_prefix p' s' else None
  end.

(** [s.replace(p, '')] for a string [p]: the first occurrence goes. *)
Fixpoint remove_first (p s : jsstring) : jsstring :=
  match strip_prefix p s with
  | Some rest => rest
  | None =>
      match s with
      | [] => []
      | c :: s' => c :: remove_first p s'
      end
  end.

Definition parseTcIdFromFilename (filename : jsstring) : jsstring :=
  match match_tc_group filename with
  | Some group => group
  | None => remove_first (js ".robot") filename
  end.

(** The setter calls of the component: those of the dry run and of the
    improvement, the two other setters, and the functional form
    [setUploadedFiles(prev => f prev)]. *)
Inductive Action :=
| Set_ (u : Setter)
| setSelectedFileIndex (i : nat)
| setIsReviewing (b : bool)
| updateUploadedFiles (f : list UploadedFile -> list UploadedFile).

Definition apply_action (st : State) (a : Action) : State :=
  match a with
  | Set_ u => apply_setter st u
  | setSelectedFileIndex i =>
      mkState (selectedModel st) (uploadedFiles st) i (reviewResult st)
        (dryRunResult st) (improvementRequest st) (improvedCode st)
        (isReviewing st) (isDryRunning st) (isImproving st)
  | setIsReviewing b =>
      mkState (selectedModel st) (uploadedFiles st) (selectedFileIndex st)
        (reviewResult st) (dryRunResult st) (improvementRequest st)
        (improvedCode st) b (isDryRunning st) (isImproving st)
  | updateUploadedFiles f =>
      mkState (selectedModel st) (f (uploadedFiles st))
        (selectedFileIndex st) (reviewResult st) (dryRunResult st)
        (improvementRequest st) (improvedCode st) (isReviewing st)
        (isDryRunning st) (isImproving st)
  end.

Definition apply_actions (st : State) (l : list Action) : State :=
  fold_left apply_action l st.

Definition replay (st : State) (l : list (Effect Action)) : State :=
  apply_actions st (updates l).

(** A file picked in the file input: its name and size, and the text
    [FileReader.readAsText] loads, if the read succeeds ([onload] fires
    only then). *)
Record InputFile := mkInput {
  file_name : jsstring;
  file_text : option jsstring;
  file_size : nat
}.

(** [Promise.all] of the reads: the entries, once every read has loaded. *)
Fixpoint read_all (files : list InputFile) : option (list UploadedFile) :=
  match files with
  | [] => Some []
  | file :: files' =>
      match file_text file, read_all files' with
      | Some text, Some fileData =>
          Some (mkFile (file_name file)
                  (parseTcIdFromFilename (file_name file))
                  (VStr text) (file_size file)
                :: fileData)
      | _, _ => None
      end
  end.

(** [handleFileUpload], for the files of the event: the setter calls made
    when the reads have all loaded, none if one never loads.  [st] is the
    state the handler closed over. *)
Definition handleFileUpload (st : State) (files : list InputFile)
  : list Action :=
  if 0 <? length files
  then match read_all files with
       | Some fileData =>
           updateUploadedFiles (fun prev => prev ++ fileData)
           :: (if length (uploadedFiles st) =? 0
               then [setSelectedFileIndex 0]
               else [])
       | None => []
       end
  else [].

(** [prev.filter((_, i) => i !== index)], from position [i] on. *)
Fixpoint drop_index_from (i index : nat) (l : list UploadedFile)
  : list UploadedFile :=
  match l with
  | [] => []
  | x :: l' =>
      if i =? index then drop_index_from (S i) index l'
      else x :: drop_index_from (S i) index l'
  end.

Definition removeFile (st : State) (index : nat) : list Action :=
  updateUploadedFiles (drop_index_from 0 index)
  :: (if (Z.of_nat (selectedFileIndex st)
          >=? Z.of_nat (length (uploadedFiles st)) - 1)%Z
      then [setSelectedFileIndex
              (Z.to_nat (Z.max 0 (Z.of_nat (length (uploadedFiles st)) - 2)))]
      else []).

Definition clearAllFiles : list Action :=
  [Set_ (setUploadedFiles []);
   setSelectedFileIndex 0;
   Set_ (setReviewResult VNull);
   Set_ (setDryRunResult VNull)].

Definition review_url : jsstring := js "/api/test/review".

Definition review_request (st : State) (file : UploadedFile) : Request :=
  mkRequest review_url POST
    (VObj [(js "test_code", content file);
           (js "test_case_id", VStr (tcId file));
           (js "model", VStr (selectedModel st));
           (js "focus_areas",
            VArr [VStr (js "syntax"); VStr (js "best_practices");
                  VStr (js "coverage")])]).

(** The result [handleReview] builds in its [catch]. *)
Definition review_failure (msg : jsstring) : value :=
  VObj [(js "feedback", VStr (js "Error reviewing test: " ++ msg));
        (js "suggestions", VArr []);
        (js "score", VNull)].

Section Handlers.
Context {W : Type} `{World W}.

Definition handleReview (st : State) : M W Action unit :=
  match getCurrentFile st with
  | None => ret tt
  | Some file =>
      update (setIsReviewing true) ;;
      update (Set_ (setReviewResult VNull)) ;;
      finally
        (try_catch
           (response <- fetch (review_request st file) ;;
            data <- json response ;;
            (if negb (ok response)
             then detail <- read data (js "detail") ;;
                  throw (mkError
                           (toStr (or_else detail
                                     (VStr (js "Failed to review test")))))
             else ret tt) ;;
            update (Set_ (setReviewResult data)))
           (fun error =>
              update (Set_ (setReviewResult
                              (review_failure (message error))))))
        (update (setIsReviewing false))
  end.

End Handlers.

End ReviewFiles.

(** ** A scripted world

    A back end that answers the requests it receives with the outcomes of a
    script, in order, whatever the request; once the script is exhausted
    the connection fails.  The engine's messages are V8's. *)

Module Scripted.
Import JS Host.

Definition script := list Outcome.

Definition answer (w : script) (_ : Request) : Outcome * script :=
  match w with
  | o :: w' => (o, w')
  | [] => (Rejected (mkError (js "Failed to fetch")), [])
  end.

Definition v8_message (k : TypeErrorKind) : jsstring :=
  match k with
  | ReadOfNullish v p =>
      js "Cannot read properties of " ++ toStr v ++ js " (reading '" ++ p
      ++ js "')"
  | NotAFunction p => p ++ js " is not a function"
  end.

#[global] Instance world : World script :=
  {| http := answer; typeErrorMessage := v8_message |}.

Definition reply (status_ok : bool) (v : value) : Outcome :=
  Resolved (mkResponse status_ok (Parsed v)).

Definition fld (k : string) (v : value) : jsstring * value := (js k, v).

Definition str (s : string) : value := VStr (js s).

End Scripted.

(** ** A sample back end

    A back end that stores what it is asked to save under
    [folder/filename.robot] and answers with that path, generates a script
    that changes with every file stored, and knows no test case. *)

Module SampleBackend.
Import JS Host GenerateTab.

Definition files := list (jsstring * value).

Definition stored_path (req : Request) : jsstring :=
  toStr (member (body req) (js "folder_path")) ++ js "/"
  ++ toStr (member (body req) (js "filename")) ++ js ".robot".

Definition serve (w : files) (req : Request) : Outcome * files :=
  if bool_decide (url req = save_url)
  then (Resolved
          (mkResponse true
             (Parsed (VObj [(js "success", VBool true);
                            (js "file_path", VStr (stored_path req))]))),
        (stored_path req, member (body req) (js "content")) :: w)
  else if bool_decide (url req = generate_url)
  then (Resolved
          (mkResponse true
             (Parsed (VObj [(js "test_code",
                             VStr (js "# revision " ++ nat_str (length w)))]))),
        w)
  else (Resolved
          (mkResponse false
             (Parsed (VObj [(js "detail", VStr (js "Not found"))]))),
        w).

#[global] Instance world : World files :=
  {| http := serve; typeErrorMessage := Scripted.v8_message |}.

(** The content a path holds: what was stored there last. *)
Fixpoint stored (path : jsstring) (w : files) : option value :=
  match w with
  | [] => None
  | (p, c) :: w' => if bool_decide (p = path) then Some c else stored path w'
  end.

End SampleBackend.

(** ** Scenarios *)

Module Scenarios.
Import JS Host Scripted.

(** The Generate tab as it is mounted, with the two inputs typed in. *)
Definition generate_tab (ids folder : string) : GenerateTab.State :=
  GenerateTab.mkState (js "exacode") [] (js ids) (js folder) [] false
    (GenerateTab.Progress.mk 0 0 [] []).

(** Replies of the back end. *)
Definition not_found : Outcome :=
  reply false (VObj [fld "detail" (str "Test case not found")]).

Definition provider_failure : Outcome :=
  reply false (VObj [fld "detail" (str "LLM provider unavailable")]).

Definition generated (code : string) : Outcome :=
  reply true (VObj [fld "test_code" (str code)]).

Definition saved_at (path : string) : Outcome :=
  reply true (VObj [fld "success" (VBool true); fld "file_path" (str path)]).

Definition network_down : Outcome :=
  Rejected (mkError (js "Failed to fetch")).

Definition checker_failure : Outcome :=
  reply false (VObj [fld "detail" (str "robot: command not found")]).

(** The Review tab with one uploaded script, selected. *)
Definition review_tab (content request : string) (improved : value)
  : ReviewTab.State :=
  ReviewTab.mkState (js "ollama-qwen3")
    [ReviewTab.mkFile (js "TC-1_door.robot") (js "TC-1") (str content) 120]
    0 VNull VNull (js request) improved false false false.

End Scenarios.

(** * Properties *)

(** ** Strings *)

Module StringFacts.
Import JS.

Lemma dropWhile_Forall {A} (p : A -> bool) (P : A -> Prop) (l : list A) :
  Forall P l -> Forall P (dropWhile p l).
Proof.
  induction 1 as [|x l Hx Hl IH]; simpl; [constructor|].
  destruct (p x); [exact IH | constructor; assumption].
Qed.

Lemma dropWhile_all {A} (p : A -> bool) (l : list A) :
  Forall (fun x => p x = true) l -> dropWhile p l = [].
Proof.
  induction 1 as [|x l Hx Hl IH]; simpl; [reflexivity|].
  rewrite Hx. exact IH.
Qed.

Lemma trim_Forall (P : N -> Prop) (s : jsstring) :
  Forall P s -> Forall P (trim s).
Proof.
  intros Hs. unfold trim.
  apply List.Forall_rev, dropWhile_Forall, List.Forall_rev, dropWhile_Forall.
  exact Hs.
Qed.

(** A string of white space only trims to the empty string. *)
Lemma trim_blank (s : jsstring) :
  Forall (fun c => is_space c = true) s -> trim s = [].
Proof.
  intros Hs. unfold trim. rewrite (dropWhile_all _ _ Hs). reflexivity.
Qed.

(** No piece of a split holds a separator. *)
Lemma split_from_clean (sep : N -> bool) (s : jsstring) :
  forall in_run piece,
    Forall (fun c => sep c = false) piece ->
    Forall (Forall (fun c => sep c = false)) (split_from sep in_run piece s).
Proof.
  induction s as [|c s IH]; intros in_run piece Hp; simpl.
  - constructor; [|constructor]. apply List.Forall_rev. exact Hp.
  - destruct (sep c) eqn:Hc.
    + destruct in_run.
      * apply IH. exact Hp.
      * constructor; [apply List.Forall_rev; exact Hp|].
        apply IH. constructor.
    + apply IH. constructor; assumption.
Qed.

Lemma split_clean (sep : N -> bool) (s : jsstring) :
  Forall (Forall (fun c => sep c = false)) (split sep s).
Proof. apply split_from_clean. constructor. Qed.

End StringFacts.

(** ** Reasoning about handlers

    The rules for [post] follow the structure of a handler. *)

Module HostFacts.
Import JS Host.

Section Rules.
Context {W : Type} `{World W} {U : Type}.

Lemma post_run {A} (m : M W U A) (w : W) Q r w' l :
  post m w Q -> m w = (r, w', l) -> Q r w' l.
Proof. unfold post. intros HQ Hrun. rewrite Hrun in HQ. exact HQ. Qed.

Lemma post_use {A} (m : M W U A) (w : W) (Q0 Q : Res A -> W -> _ -> Prop) :
  post m w Q0 -> (forall r w' l, Q0 r w' l -> Q r w' l) -> post m w Q.
Proof.
  unfold post. destruct (m w) as [[r w'] l]. intros H0 HQ. apply HQ, H0.
Qed.

Lemma post_ret {A} (a : A) (w : W) (Q : Res A -> W -> list (Effect U) -> Prop) :
  Q (Ok a) w [] -> post (ret a) w Q.
Proof. exact (fun HQ => HQ). Qed.

Lemma post_throw {A} e (w : W) (Q : Res A -> W -> list (Effect U) -> Prop) :
  Q (Throw e) w [] -> post (throw e) w Q.
Proof. exact (fun HQ => HQ). Qed.

Lemma post_emit (x : Effect U) (w : W)
    (Q : Res unit -> W -> list (Effect U) -> Prop) :
  Q (Ok tt) w [x] -> post (emit x) w Q.
Proof. exact (fun HQ => HQ). Qed.

Lemma post_bind {A B} (m : M W U A) (k : A -> M W U B) (w : W) Q :
  post m w (fun r w1 l1 =>
              match r with
              | Ok a => post (k a) w1 (fun r2 w2 l2 => Q r2 w2 (l1 ++ l2))
              | Throw e => Q (Throw e) w1 l1
              end) ->
  post (bind m k) w Q.
Proof.
  unfold post, bind. destruct (m w) as [[[a|e] w1] l1]; [|exact (fun HQ => HQ)].
  destruct (k a w1) as [[r2 w2] l2]. exact (fun HQ => HQ).
Qed.

Lemma post_try_catch {A} (m : M W U A) (h : Error -> M W U A) (w : W) Q :
  post m w (fun r w1 l1 =>
              match r with
              | Ok a => Q (Ok a) w1 l1
              | Throw e => post (h e) w1 (fun r2 w2 l2 => Q r2 w2 (l1 ++ l2))
              end) ->
  post (try_catch m h) w Q.
Proof.
  unfold post, try_catch.
  destruct (m w) as [[[a|e] w1] l1]; [exact (fun HQ => HQ)|].
  destruct (h e w1) as [[r2 w2] l2]. exact (fun HQ => HQ).
Qed.

Lemma post_finally {A} (m : M W U A) (f : M W U unit) (w : W) Q :
  post m w (fun r w1 l1 =>
              post f w1 (fun r2 w2 l2 =>
                           match r2 with
                           | Ok _ => Q r w2 (l1 ++ l2)
                           | Throw e => Q (Throw e) w2 (l1 ++ l2)
                           end)) ->
  post (finally m f) w Q.
Proof.
  unfold post, finally. destruct (m w) as [[r w1] l1].
  destruct (f w1) as [[[u|e] w2] l2]; exact (fun HQ => HQ).
Qed.

Lemma post_fetch (req : Request) (w : W)
    (Q : Res Response -> W -> list (Effect U) -> Prop) :
  (forall o w1, http w req = (o, w1) ->
     match o with
     | Resolved r => Q (Ok r) w1 [Fetch req]
     | Rejected e => Q (Throw e) w1 [Fetch req]
     end) ->
  post (fetch req) w Q.
Proof.
  unfold post, fetch. intros HQ.
  destruct (http w req) as [[r|e] w1] eqn:Hhttp; exact (HQ _ _ eq_refl).
Qed.

Lemma post_json (r : Response) (w : W) (Q : Res value -> W -> list (Effect U) -> Prop) :
  match content r with
  | Parsed v => Q (Ok v) w []
  | Unparsable e => Q (Throw e) w []
  end ->
  post (json r) w Q.
Proof. unfold post, json. destruct (content r); exact (fun HQ => HQ). Qed.

Lemma post_read (v : value) k (w : W) (Q : Res value -> W -> list (Effect U) -> Prop) :
  (if nullish v
   then Q (Throw (mkError (typeErrorMessage (ReadOfNullish v k)))) w []
   else Q (Ok (member v k)) w []) ->
  post (read v k) w Q.
Proof. unfold post, read. destruct (nullish v); exact (fun HQ => HQ). Qed.

End Rules.

(** One step through a handler. *)
Ltac handler_step :=
  lazymatch goal with
  | |- post (bind _ _) _ _ => apply post_bind
  | |- post (try_catch _ _) _ _ => apply post_try_catch
  | |- post (finally _ _) _ _ => apply post_finally
  | |- post (ret _) _ _ => apply post_ret
  | |- post (throw _) _ _ => apply post_throw
  | |- post (update _) _ _ => apply post_emit
  | |- post (alert _) _ _ => apply post_emit
  | |- post (console_warn _ _) _ _ => apply post_emit
  | |- post (emit _) _ _ => apply post_emit
  | |- post (json _) _ _ => apply post_json
  | |- post (read _ _) _ _ => apply post_read
  | |- post (if ?b then _ else _) _ _ => destruct b eqn:?
  end; cbn beta iota.

(** A handler all the way down, with the outcome of every request split
    into its cases. *)
Ltac handler_go :=
  repeat first
    [ progress cbn [content ok negb]
    | handler_step
    | apply post_fetch; intros [[[] [?|?]]|?] ? ?; cbn beta iota
    | match goal with
      | |- context [if nullish ?v then _ else _] => destruct (nullish v) eqn:?
      end ].

Lemma requests_app {U} (l1 l2 : list (Effect U)) :
  requests (l1 ++ l2) = requests l1 ++ requests l2.
Proof. apply flat_map_app. Qed.

Lemma updates_app {U} (l1 l2 : list (Effect U)) :
  updates (l1 ++ l2) = updates l1 ++ updates l2.
Proof. apply flat_map_app. Qed.

End HostFacts.

(** ** The batch generation pipeline *)

Module GenerateFacts.
Import JS Host GenerateTab StringFacts HostFacts.

Lemma is_id_separator_false (c : N) :
  is_id_separator c = false ->
  c <> comma /\ is_space c = false /\ c <> 32%N /\ c <> 10%N.
Proof.
  unfold is_id_separator. intros Hc.
  apply orb_false_elim in Hc as [Hc Hn].
  apply orb_false_elim in Hc as [Hc Hs].
  apply N.eqb_neq in Hc. apply N.eqb_neq in Hn.
  repeat split; try assumption.
  intros ->. discriminate Hs.
Qed.

(** Every identifier [parseTestCaseIds] returns is non-empty and free of
    commas and white space. *)
Lemma parseTestCaseIds_ids (input : jsstring) :
  Forall (fun id => id <> [] /\
                    Forall (fun c => c <> comma /\ is_space c = false /\
                                     c <> 32%N /\ c <> 10%N) id)
         (parseTestCaseIds input).
Proof.
  unfold parseTestCaseIds.
  apply List.Forall_forall. intros id Hin.
  apply List.filter_In in Hin as [Hin Hlen].
  apply List.in_map_iff in Hin as (piece & <- & Hin).
  split.
  - intros Hnil. rewrite Hnil in Hlen. discriminate Hlen.
  - apply trim_Forall.
    pose proof (split_clean is_id_separator input) as Hall.
    rewrite List.Forall_forall in Hall. specialize (Hall _ Hin).
    eapply List.Forall_impl; [|exact Hall].
    intros c. apply is_id_separator_false.
Qed.

Lemma or_else_not_nullish (a b : value) :
  nullish b = false -> nullish (or_else a b) = false.
Proof.
  unfold or_else. destruct (truthy a) eqn:Ha; [|exact (fun Hb => Hb)].
  intros _. destruct a; try reflexivity; discriminate Ha.
Qed.

Section Run.
Context {W : Type} `{World W}.

(** *** One identifier *)

(** The fetch of the test case never throws, and ends with [null] when the
    retrieval fails. *)
Lemma fetchTestCase_spec (id : jsstring) (w : W) :
  post (fetchTestCase id) w (fun res w1 l =>
    exists d o,
      res = Ok d /\ http w (testcase_request id) = (o, w1) /\
      (retrieval_failed o = true -> d = VNull) /\
      requests l = [testcase_request id] /\ updates l = []).
Proof.
  unfold fetchTestCase. handler_go.
  all: eexists _, _; split; [reflexivity|]; split; [eassumption|].
  all: repeat split; try reflexivity; try discriminate.
Qed.

(** [saveTestFile] throws only when the test case name is not a string,
    before any request; otherwise it sends one request and reports its
    outcome as data. *)
Lemma saveTestFile_spec (folder id : jsstring) (code name : value) (w : W) :
  post (saveTestFile folder id code name) w (fun res w' l =>
    updates l = [] /\
    match res with
    | Throw e => requests l = [] /\ nullish name = false /\
                 forall n, name <> VStr n
    | Ok sr =>
        requests l = [save_request folder (save_filename id name) code] /\
        (nullish name = true \/ exists n, name = VStr n) /\
        if SaveResult.success sr
        then (exists data,
                 http w (save_request folder (save_filename id name) code)
                 = (Resolved (mkResponse true (Parsed data)), w') /\
                 SaveResult.path sr = member data (js "file_path")) /\
             SaveResult.error sr = VUndefined
        else SaveResult.path sr = VUndefined /\
             exists m, SaveResult.error sr = VStr m
    end).
Proof.
  unfold saveTestFile.
  destruct name; cbn [opt_replace_spaces]; handler_go.
  all: cbn [SaveResult.success SaveResult.path SaveResult.error].
  all: repeat split; try reflexivity; try discriminate; eauto.
Qed.

Lemma attempt_spec (st : State) (total i : nat) (id : jsstring) (w : W) :
  post (attempt st total i id) w (attempt_post st total i id w).
Proof.
  unfold attempt.
  apply post_try_catch, post_bind.
  eapply post_use; [apply fetchTestCase_spec|].
  intros res w1 l1 (d & o & -> & Hhttp & Hfail & Hreq & Hupd).
  cbn beta iota. handler_go.
  all: try lazymatch goal with
       | |- post (saveTestFile _ _ _ _) _ _ =>
           eapply post_use; [apply saveTestFile_spec|];
           intros [sr|e'] w3 l3 (Hu3 & Hs); cbn beta iota; handler_go
       end.
  all: eexists _, d, o, w1; split; [reflexivity|]; split; [reflexivity|].
  all: split; [assumption|]; split; [assumption|].
  all: rewrite ?requests_app, ?updates_app, Hreq, Hupd.
  all: try (destruct Hs as (Hr3 & Hs); rewrite Hu3, Hr3).
  all: split; [reflexivity|].
  all: split; [first [left; reflexivity | right; reflexivity]|].
  all: cbn [status error testCaseName saved savedPath saveError testCode tcId].
  all: try (repeat split; eexists; split; reflexivity).
  all: destruct Hs as [Hname Hsr]; split; [reflexivity|]; split.
  all: try (destruct Hname as [Hn|Hn]; [|exact Hn];
            rewrite or_else_not_nullish in Hn by reflexivity; discriminate Hn).
  all: destruct (SaveResult.success sr); [|exact Hsr].
  all: destruct Hsr as [(data & Hsave & Hpath) Herr].
  all: split; [|exact Herr]; eexists _, data; split; eassumption.
Qed.

(** A generation request that is rejected, or whose answer cannot be
    parsed, is recorded as an error with the message of the exception,
    and nothing is saved. *)
Lemma thrown_generation_is_recorded_as_error (st : State) (total i : nat)
    (id : jsstring) (w w1 w2 : W) (d : value) l1 (o : Outcome) (e : Error) :
  fetchTestCase id w = (Ok d, w1, l1) ->
  http w1 (generate_request st id d) = (o, w2) ->
  o = Rejected e \/ (exists b, o = Resolved (mkResponse b (Unparsable e))) ->
  attempt st total i id w
  = (Ok (mkGenResult id StatusError
           (VStr (error_test_code id (message e)))
           VUndefined VUndefined false VUndefined VUndefined
           (VStr (message e))),
     w2, l1 ++ [Fetch (generate_request st id d)]).
Proof.
  intros Hfetch Hhttp Ho.
  unfold attempt, try_catch, bind. rewrite Hfetch.
  unfold fetch. rewrite Hhttp.
  destruct Ho as [-> | [b ->]]; cbn [json content throw ret];
    rewrite ?app_nil_r; reflexivity.
Qed.

(** An attempt always ends with an entry. *)
Lemma attempt_runs (st : State) (total i : nat) (id : jsstring) (w : W) :
  exists r w' l,
    attempt st total i id w = (Ok r, w', l) /\
    attempt_post st total i id w (Ok r) w' l.
Proof.
  destruct (attempt st total i id w) as [[res w'] l] eqn:Hrun.
  pose proof (post_run _ _ _ _ _ _ (attempt_spec st total i id w) Hrun)
    as Hpost.
  destruct Hpost as (r & d & o & w1 & -> & Hrest).
  exists r, w', l. split; [reflexivity|].
  exists r, d, o, w1. split; [reflexivity | exact Hrest].
Qed.

Lemma iteration_run (st : State) (total i : nat) (id : jsstring)
    (results : list GenResult) (w : W) r w1 l1 :
  attempt st total i id w = (Ok r, w1, l1) ->
  iteration st total i id results w
  = (Ok (results ++ [r]), w1,
     Update (setCurrentProgress (generating total i id))
     :: l1 ++ [Update (setGeneratedTests (results ++ [r]))]).
Proof.
  intros Hrun. unfold iteration, bind, update, emit, ret.
  rewrite Hrun. reflexivity.
Qed.

(** *** The loop *)

(** The loop runs to its end, whatever happens to each identifier. *)
Lemma forLoop_run (st : State) (total : nat) (ids : list jsstring) :
  forall i results (w : W),
    exists rs w' l,
      forLoop st total i ids results w = (Ok (results ++ rs), w', l) /\
      LoopRun st total i ids results w rs w' l.
Proof.
  induction ids as [|id ids IH]; intros i results w.
  - exists [], w, []. rewrite app_nil_r. split; [reflexivity | constructor].
  - destruct (attempt_runs st total i id w) as (r & w1 & l1 & Hrun & _).
    destruct (IH (S i) (results ++ [r]) w1) as (rs & w2 & l2 & Hloop & Hrel).
    exists (r :: rs), w2,
      (Update (setCurrentProgress (generating total i id))
       :: l1 ++ Update (setGeneratedTests (results ++ [r])) :: l2).
    split; [|econstructor; eassumption].
    cbn [forLoop]. unfold bind at 1.
    rewrite (iteration_run _ _ _ _ _ _ _ _ _ Hrun), Hloop.
    rewrite <- app_assoc. cbn [app]. rewrite <- app_assoc. reflexivity.
Qed.

Lemma LoopRun_tcIds st total i ids results (w : W) rs w' l :
  LoopRun st total i ids results w rs w' l -> map tcId rs = ids.
Proof.
  induction 1 as [|i id ids results w r w1 l1 rs w2 l2 Hrun Hloop IH];
    [reflexivity|].
  pose proof (post_run _ _ _ _ _ _ (attempt_spec st total i id w) Hrun)
    as (r' & d & o & w1' & [= <-] & Hid & _).
  cbn [map]. rewrite Hid, IH. reflexivity.
Qed.

(** What holds of every entry an attempt can end with holds of every entry
    of the loop. *)
Lemma LoopRun_Forall (P : GenResult -> Prop) st total :
  (forall i id (w : W) r w' l,
      attempt st total i id w = (Ok r, w', l) -> P r) ->
  forall i ids results w rs w' l,
    LoopRun st total i ids results w rs w' l -> Forall P rs.
Proof.
  intros HP i ids results w rs w' l.
  induction 1 as [|i id ids results w r w1 l1 rs w2 l2 Hrun Hloop IH];
    constructor; [eapply HP; exact Hrun | exact IH].
Qed.

(** The requests of the loop are the cycles of its entries, in order. *)
Lemma LoopRun_requests st total i ids results (w : W) rs w' l :
  LoopRun st total i ids results w rs w' l ->
  exists ds, length ds = length ids /\
             requests l = flat_map (cycle st) (zip rs ds).
Proof.
  induction 1 as [|i id ids results w r w1 l1 rs w2 l2 Hrun Hloop IH].
  - exists []. split; reflexivity.
  - destruct IH as (ds & Hlen & Hreq).
    pose proof (post_run _ _ _ _ _ _ (attempt_spec st total i id w) Hrun)
      as (r' & d & o & w1' & [= <-] & _ & _ & _ & Hcycle & _).
    exists (d :: ds). split; [cbn [length]; rewrite Hlen; reflexivity|].
    change (requests (?x :: ?l)) with (requests l).
    rewrite requests_app.
    change (requests (?x :: ?l)) with (requests l).
    rewrite Hcycle, Hreq. reflexivity.
Qed.


(** The loop ends with all its entries published. *)
Lemma LoopRun_published st total i ids results (w : W) rs w' l :
  LoopRun st total i ids results w rs w' l ->
  published results (updates l) = results ++ rs.
Proof.
  induction 1 as [|i id ids results w r w1 l1 rs w2 l2 Hrun Hloop IH].
  - rewrite app_nil_r. reflexivity.
  - change (updates (?x :: ?l0)) with
      (setCurrentProgress (generating total i id) :: updates l0).
    rewrite updates_app.
    change (updates (Update ?u :: ?l0)) with (u :: updates l0).
    unfold published in *. cbn [fold_left]. rewrite fold_left_app.
    cbn [fold_left]. rewrite IH, <- app_assoc. reflexivity.
Qed.

(** *** Progress reports *)

Lemma reports_from_app (n : nat) (a b : list Setter) :
  reports_from n (a ++ b)
  = reports_from n a ++ reports_from (finished_after n a) b.
Proof.
  revert n. induction a as [|u a IH]; intros n; [reflexivity|].
  destruct u; cbn [app reports_from]; rewrite IH; reflexivity.
Qed.



(** *** The whole handler *)

Lemma runBatch_run (st : State) (tcIds : list jsstring) (w : W) :
  exists rs w' l,
    LoopRun st (length tcIds) 0 tcIds [] w rs w' l /\
    runBatch st tcIds w
    = (Ok tt, w',
       Update (setIsLoading true) :: Update (setGeneratedTests [])
       :: Update (setCurrentProgress (starting tcIds))
       :: l ++ [Update (setIsLoading false);
                Update (setCurrentProgress (complete st tcIds rs))]).
Proof.
  destruct (forLoop_run st (length tcIds) tcIds 0 [] w)
    as (rs & w' & l & Hloop & Hrel).
  exists rs, w', l. split; [exact Hrel|].
  unfold runBatch, bind, update, emit. rewrite Hloop. reflexivity.
Qed.

(** The requests, the results and the reports of a batch are those of its
    loop, between the opening report and the closing one. *)
Lemma runBatch_facts (st : State) (tcIds : list jsstring) (w : W) :
  exists rs w' l,
    LoopRun st (length tcIds) 0 tcIds [] w rs w' l /\
    result_of (runBatch st tcIds w) = Ok tt /\
    world_of (runBatch st tcIds w) = w' /\
    requests (effects_of (runBatch st tcIds w)) = requests l /\
    (forall cur,
        published cur (updates (effects_of (runBatch st tcIds w))) = rs) /\
    (forall n0,
        reports_from n0 (updates (effects_of (runBatch st tcIds w)))
        = (0, starting tcIds) :: reports_from 0 (updates l)
          ++ [(finished_after 0 (updates l), complete st tcIds rs)]).
Proof.
  destruct (runBatch_run st tcIds w) as (rs & w' & l & Hrel & Hrun).
  exists rs, w', l. rewrite Hrun. cbn [result_of world_of effects_of fst snd].
  split; [exact Hrel|]. split; [reflexivity|]. split; [reflexivity|].
  split; [|split].
  - change (requests (Update ?a :: Update ?b :: Update ?c :: ?l0))
      with (requests l0).
    rewrite requests_app. apply app_nil_r.
  - intros cur.
    change (updates (Update ?a :: Update ?b :: Update ?c :: ?l0))
      with (a :: b :: c :: updates l0).
    rewrite updates_app. unfold published. cbn [fold_left].
    rewrite fold_left_app. cbn [updates flat_map app fold_left].
    apply (LoopRun_published _ _ _ _ _ _ _ _ _ Hrel).
  - intros n0.
    change (updates (Update ?a :: Update ?b :: Update ?c :: ?l0))
      with (a :: b :: c :: updates l0).
    rewrite updates_app. cbn [reports_from length].
    rewrite reports_from_app. reflexivity.
Qed.


Lemma canGenerate_true (st : State) :
  canGenerate st = true ->
  handleGenerate (W := W) st = runBatch st (parseTestCaseIds (testCaseIds st)).
Proof.
  unfold canGenerate, handleGenerate. intros Hcan.
  apply andb_true_iff in Hcan as [Hids Hdir].
  apply Nat.ltb_lt in Hids. apply Nat.ltb_lt in Hdir.
  destruct (length (parseTestCaseIds (testCaseIds st))) eqn:Hn; [lia|].
  destruct (trim (outputFolder st)); [cbn in Hdir; lia|]. reflexivity.
Qed.

(** A request that fails one of the two checks ends in an alert and
    nothing else. *)
Lemma canGenerate_false (st : State) (w : W) :
  canGenerate st = false ->
  exists m, handleGenerate st w = (Ok tt, w, [Alert m]).
Proof.
  unfold canGenerate, handleGenerate. intros Hcan.
  destruct (length (parseTestCaseIds (testCaseIds st))) eqn:Hn.
  - eexists. reflexivity.
  - destruct (trim (outputFolder st)) eqn:Hdir.
    + eexists. reflexivity.
    + discriminate Hcan.
Qed.

End Run.

(** *** The results of a batch *)

(** The results of a run of the whole handler: one per identifier when the
    output folder is not blank. *)
Lemma handleGenerate_produced {W : Type} `{World W} (st : State) (w : W) :
  trim (outputFolder st) <> [] ->
  result_of (handleGenerate st w) = Ok tt /\
  map tcId (produced (effects_of (handleGenerate st w)))
  = parseTestCaseIds (testCaseIds st).
Proof.
  intros Hdir.
  destruct (canGenerate st) eqn:Hcan.
  - rewrite (canGenerate_true st Hcan).
    destruct (runBatch_facts st (parseTestCaseIds (testCaseIds st)) w)
      as (rs & w' & l & Hrel & Hres & _ & _ & Hpub & _).
    unfold produced. rewrite Hpub.
    split; [exact Hres | exact (LoopRun_tcIds _ _ _ _ _ _ _ _ _ Hrel)].
  - destruct (canGenerate_false st w Hcan) as (m & Hrun). rewrite Hrun.
    split; [reflexivity|].
    unfold canGenerate in Hcan. apply andb_false_iff in Hcan as [Hids|Hd].
    + apply Nat.ltb_ge in Hids.
      destruct (parseTestCaseIds (testCaseIds st)); [reflexivity|].
      cbn [length] in Hids. lia.
    + apply Nat.ltb_ge in Hd. destruct (trim (outputFolder st));
        [contradiction | cbn [length] in Hd; lia].
Qed.




(** C3: under the contract of the save end point, every result of a batch
    that is saved carries the path it was saved at, a non-empty string, and
    every result that is not saved carries an error message or the error
    of its save. *)
Theorem saved_results_carry_their_path {W : Type} `{World W}
    (st : State) (w : W) :
  PersistenceContract ->
  Forall (fun r =>
            (saved r = true ->
             exists p, savedPath r = VStr p /\ p <> []) /\
            (saved r = false ->
             (exists m, error r = VStr m) \/
             (exists m, saveError r = VStr m)))
         (produced (effects_of (handleGenerate st w))).
Proof.
  intros Hcontract.
  destruct (canGenerate st) eqn:Hcan.
  - rewrite (canGenerate_true st Hcan).
    destruct (runBatch_facts st (parseTestCaseIds (testCaseIds st)) w)
      as (rs & w' & l & Hrel & _ & _ & _ & Hpub & _).
    unfold produced. rewrite Hpub.
    eapply LoopRun_Forall; [|exact Hrel].
    intros i id w0 r w1 l1 Hrun.
    pose proof (post_run _ _ _ _ _ _ (attempt_spec st _ i id w0) Hrun)
      as (r' & d & o & w2 & [= <-] & _ & _ & _ & _ & _ & Hstatus).
    destruct (status r).
    + destruct Hstatus as (_ & _ & Hsaved).
      destruct (saved r).
      * destruct Hsaved as [(w3 & data & Hsave & Hpath) _].
        split; [|discriminate]. intros _. rewrite Hpath.
        exact (Hcontract _ _ _ _ _ _ Hsave).
      * destruct Hsaved as (_ & Herr).
        split; [discriminate|]. intros _. right. exact Herr.
    + destruct Hstatus as (Hsaved & _ & _ & m & Herr & _).
      rewrite Hsaved. split; [discriminate|]. intros _. left.
      exists m. exact Herr.
  - destruct (canGenerate_false st w Hcan) as (m & Hrun).
    rewrite Hrun. constructor.
Qed.

(** The sample back end honours the contract. *)
Lemma sample_backend_contract :
  PersistenceContract (W := SampleBackend.files).
Proof.
  intros w w' folderPath filename content data Hsave.
  change (SampleBackend.serve w (save_request folderPath filename content)
          = (Resolved (mkResponse true (Parsed data)), w')) in Hsave.
  unfold SampleBackend.serve in Hsave.
  rewrite bool_decide_eq_true_2 in Hsave by reflexivity.
  injection Hsave as <- _.
  eexists. split; [reflexivity|].
  unfold SampleBackend.stored_path. intros Hnil.
  apply (f_equal length) in Hnil. rewrite !length_app in Hnil.
  change (length (js "/")) with 1 in Hnil. cbn [length] in Hnil. lia.
Qed.

Lemma saved_results_carry_their_path_witness :
  map saved
    (produced
       (effects_of
          (handleGenerate (Scenarios.generate_tab "TC-1 TC-2" "out")
             ([] : SampleBackend.files))))
  = [true; true] /\
  Forall (fun r =>
            (saved r = true ->
             exists p, savedPath r = VStr p /\ p <> []) /\
            (saved r = false ->
             (exists m, error r = VStr m) \/
             (exists m, saveError r = VStr m)))
         (produced
            (effects_of
               (handleGenerate (Scenarios.generate_tab "TC-1 TC-2" "out")
                  ([] : SampleBackend.files)))).
Proof.
  split; [vm_compute; reflexivity|].
  exact (saved_results_carry_their_path
           (Scenarios.generate_tab "TC-1 TC-2" "out") []
           sample_backend_contract).
Defined.

(** *** Failures of one identifier *)

(** C6: when the loop reaches an identifier whose test case cannot be
    retrieved (the request is rejected, the status is not ok, or the body
    cannot be parsed), the test case data is [null], the generation request
    is sent all the same, with the prompt built from the bare identifier,
    and the loop records an entry for this identifier and for every
    identifier after it. *)
Theorem failed_fetch_degrades_the_prompt {W : Type} `{World W}
    (st : State) (total i : nat) (id : jsstring) (rest : list jsstring)
    (results : list GenResult) (w : W) (o : Outcome) (w1 : W) :
  http w (testcase_request id) = (o, w1) ->
  retrieval_failed o = true ->
  exists r rs w' l l',
    forLoop st total i (id :: rest) results w
    = (Ok (results ++ r :: rs), w', l) /\
    tcId r = id /\ map tcId rs = rest /\
    requests l
    = testcase_request id :: generate_request st id VNull :: l' /\
    member (body (generate_request st id VNull)) (js "description")
    = VStr (js "Generate Robot Framework test for Test Case ID: " ++ id).
Proof.
  intros Hhttp Hfailed.
  destruct (forLoop_run st total (id :: rest) i results w)
    as (rs0 & w' & l & Hloop & Hrel).
  inversion Hrel as [|? ? ? ? ? r w2 l1 rs w3 l2 Hrun Hrest]; subst.
  pose proof (post_run _ _ _ _ _ _ (attempt_spec st total i id w) Hrun)
    as (r' & d & o' & w1' & [= <-] & Hid & Hhttp' & Hnull & Hcycle & _).
  rewrite Hhttp in Hhttp'. injection Hhttp' as <- <-.
  rewrite (Hnull Hfailed) in Hcycle.
  eexists r, rs, w', _, (saves_of st r ++ requests l2).
  split; [exact Hloop|]. split; [exact Hid|].
  split; [exact (LoopRun_tcIds _ _ _ _ _ _ _ _ _ Hrest)|].
  split; [|reflexivity].
  change (requests (Update ?u :: ?l0)) with (requests l0).
  rewrite requests_app.
  change (requests (Update ?u :: ?l0)) with (requests l0).
  rewrite Hcycle. unfold cycle. cbn [fst snd]. rewrite Hid. reflexivity.
Qed.

Lemma failed_fetch_degrades_the_prompt_witness :
  exists r rs w' l l',
    forLoop (Scenarios.generate_tab "TC-7, TC-8" "out") 2 0
      [js "TC-7"; js "TC-8"] []
      [Scenarios.network_down; Scenarios.generated "code";
       Scenarios.saved_at "out/TC-7_TC-7.robot"]
    = (Ok ([] ++ r :: rs), w', l) /\
    tcId r = js "TC-7" /\ map tcId rs = [js "TC-8"] /\
    requests l
    = testcase_request (js "TC-7")
      :: generate_request (Scenarios.generate_tab "TC-7, TC-8" "out")
           (js "TC-7") VNull
      :: l' /\
    member (body (generate_request (Scenarios.generate_tab "TC-7, TC-8" "out")
                    (js "TC-7") VNull)) (js "description")
    = VStr (js "Generate Robot Framework test for Test Case ID: "
            ++ js "TC-7").
Proof.
  apply (failed_fetch_degrades_the_prompt
           (Scenarios.generate_tab "TC-7, TC-8" "out") 2 0 (js "TC-7")
           [js "TC-8"] []
           [Scenarios.network_down; Scenarios.generated "code";
            Scenarios.saved_at "out/TC-7_TC-7.robot"]
           Scenarios.network_down
           [Scenarios.generated "code";
            Scenarios.saved_at "out/TC-7_TC-7.robot"]).
  - reflexivity.
  - reflexivity.
Defined.

(** C1, at an input where the code departs from it: the generation end
    point answers the request for TC-1 with an error status and a JSON
    body (the provider is down).  The entry of TC-1 is recorded as a
    success, without an error message, and it is saved. *)
Theorem provider_failure_is_recorded_as_success :
  map (fun r => (tcId r, status r, error r, saved r, testCode r))
    (produced
       (effects_of
          (handleGenerate (Scenarios.generate_tab "TC-1" "out")
             [Scenarios.not_found; Scenarios.provider_failure;
              Scenarios.saved_at "out/TC-1_TC-1.robot"])))
  = [(js "TC-1", StatusSuccess, VUndefined, true,
      VStr (no_test_code (js "TC-1")))].
Proof. vm_compute. reflexivity. Qed.

(** *** Duplicate identifiers *)



(** With the sample back end, the second occurrence of an identifier
    replaces the file of the first. *)
Example duplicate_identifier_overwrites_its_file :
  world_of (handleGenerate (Scenarios.generate_tab "TC-1 TC-1" "out")
              ([] : SampleBackend.files))
  = [(js "out/TC-1_TC-1.robot", VStr (js "# revision 1"));
     (js "out/TC-1_TC-1.robot", VStr (js "# revision 0"))]
  /\ SampleBackend.stored (js "out/TC-1_TC-1.robot")
       (world_of (handleGenerate (Scenarios.generate_tab "TC-1 TC-1" "out")
                    ([] : SampleBackend.files)))
     = Some (VStr (js "# revision 1")).
Proof. split; vm_compute; reflexivity. Qed.

(** *** Progress *)





(** *** Identifiers *)

(** C10: the identifiers [parseTestCaseIds] returns are non-empty and hold
    no comma, no space, no newline and no other white space; so no result
    of a batch belongs to an empty identifier, and a batch produces as many
    results as the count of identifiers shown under the input. *)
Theorem parsed_identifiers_are_clean {W : Type} `{World W}
    (input : jsstring) (st : State) (w : W) :
  Forall (fun id => id <> [] /\
                    Forall (fun c => c <> comma /\ is_space c = false /\
                                     c <> 32%N /\ c <> 10%N) id)
         (parseTestCaseIds input)
  /\ Forall (fun r => tcId r <> [])
            (produced (effects_of (handleGenerate st w)))
  /\ length (produced (effects_of
                         (runBatch st (parseTestCaseIds (testCaseIds st)) w)))
     = length (parseTestCaseIds (testCaseIds st))
  /\ (trim (outputFolder st) <> [] ->
      length (produced (effects_of (handleGenerate st w)))
      = length (parseTestCaseIds (testCaseIds st))).
Proof.
  split; [apply parseTestCaseIds_ids|].
  destruct (runBatch_facts st (parseTestCaseIds (testCaseIds st)) w)
    as (rs & w' & l & Hrel & _ & _ & _ & Hpub & _).
  pose proof (LoopRun_tcIds _ _ _ _ _ _ _ _ _ Hrel) as Hids.
  assert (Hlen : length (produced (effects_of
                    (runBatch st (parseTestCaseIds (testCaseIds st)) w)))
                 = length (parseTestCaseIds (testCaseIds st))).
  { unfold produced. rewrite Hpub, <- Hids, length_map. reflexivity. }
  split; [|split; [exact Hlen|]].
  - destruct (canGenerate st) eqn:Hcan.
    + rewrite (canGenerate_true st Hcan). unfold produced. rewrite Hpub.
      pose proof (parseTestCaseIds_ids (testCaseIds st)) as Hclean.
      rewrite <- Hids in Hclean. apply Forall_map in Hclean.
      eapply Forall_impl; [exact Hclean|]. intros r [Hne _]. exact Hne.
    + destruct (canGenerate_false st w Hcan) as (m & Hrun). rewrite Hrun.
      constructor.
  - intros Hdir.
    destruct (handleGenerate_produced st w Hdir) as [_ Hall].
    rewrite <- Hall, length_map. reflexivity.
Qed.

Lemma parsed_identifiers_are_clean_witness :
  length (produced
            (effects_of
               (handleGenerate (Scenarios.generate_tab "TC-1,, TC-2 " "out")
                  [Scenarios.not_found; Scenarios.network_down])))
  = length (parseTestCaseIds (js "TC-1,, TC-2 ")).
Proof.
  pose proof (parsed_identifiers_are_clean (js "TC-1,, TC-2 ")
                (Scenarios.generate_tab "TC-1,, TC-2 " "out")
                [Scenarios.not_found; Scenarios.network_down])
    as (_ & _ & _ & Hcount).
  apply Hcount. vm_compute. discriminate.
Defined.

(** *** Validation *)

(** C5: a malformed request, with no identifier or with an empty or blank
    output folder, is rejected before any step of the pipeline: the handler
    returns after an alert, without a request, a state change or a
    result, and the Generate button is disabled for it. *)
Theorem malformed_request_is_rejected {W : Type} `{World W}
    (st : State) (w : W) :
  parseTestCaseIds (testCaseIds st) = [] \/
  Forall (fun c => is_space c = true) (outputFolder st) ->
  canGenerate st = false /\
  result_of (handleGenerate st w) = Ok tt /\
  world_of (handleGenerate st w) = w /\
  requests (effects_of (handleGenerate st w)) = [] /\
  updates (effects_of (handleGenerate st w)) = [] /\
  produced (effects_of (handleGenerate st w)) = [] /\
  replay st (effects_of (handleGenerate st w)) = st /\
  exists m, effects_of (handleGenerate st w) = [Alert m].
Proof.
  intros Hbad.
  assert (Hcan : canGenerate st = false).
  { unfold canGenerate. destruct Hbad as [Hids | Hdir].
    - rewrite Hids. reflexivity.
    - rewrite (trim_blank _ Hdir). apply andb_false_r. }
  split; [exact Hcan|].
  destruct (canGenerate_false st w Hcan) as (m & Hrun).
  rewrite Hrun. repeat split. exists m. reflexivity.
Qed.

Lemma malformed_request_is_rejected_witness :
  canGenerate (Scenarios.generate_tab "TC-1, TC-2" "   ") = false /\
  requests (effects_of (handleGenerate
                          (Scenarios.generate_tab "TC-1, TC-2" "   ")
                          [Scenarios.network_down])) = [].
Proof.
  pose proof (malformed_request_is_rejected
                (Scenarios.generate_tab "TC-1, TC-2" "   ")
                [Scenarios.network_down]) as Hthm.
  destruct Hthm as (Hcan & _ & _ & Hreq & _).
  - right. vm_compute. repeat constructor.
  - split; [exact Hcan | exact Hreq].
Defined.

End GenerateFacts.

(** ** The review loop *)

Module ReviewFacts.
Import JS Host ReviewTab HostFacts.

Section Run.
Context {W : Type} `{World W}.

(** *** Dry run *)

(** No exception leaves [handleDryRun]. *)
Lemma handleDryRun_never_throws (st : State) (w : W) :
  result_of (handleDryRun st w) = Ok tt.
Proof.
  assert (Hpost : post (handleDryRun st) w (fun res _ _ => res = Ok tt)).
  { unfold handleDryRun. destruct (getCurrentFile st); handler_go.
    all: reflexivity. }
  unfold post in Hpost. unfold result_of.
  destruct (handleDryRun st w) as [[res w'] l]. exact Hpost.
Qed.

(** A request that is rejected and a body that cannot be parsed both end
    in the failure result, which carries the message. *)
Lemma handleDryRun_thrown_failure (st : State) (file : UploadedFile)
    (w w1 : W) (o : Outcome) (e : Error) :
  getCurrentFile st = Some file ->
  http w (dry_run_request file) = (o, w1) ->
  o = Rejected e \/ (exists b, o = Resolved (mkResponse b (Unparsable e))) ->
  dryRunResult (replay st (effects_of (handleDryRun st w)))
  = dry_run_failure (message e).
Proof.
  intros Hfile Hhttp Ho.
  unfold handleDryRun, finally, try_catch, bind, fetch, json, update, emit.
  rewrite Hfile, Hhttp.
  destruct Ho as [-> | [b ->]]; reflexivity.
Qed.

(** *** Improvement *)

Lemma handleImprove_updates (st : State) (w : W) :
  Forall improve_only (updates (effects_of (handleImprove st w))).
Proof.
  assert (Hpost : post (handleImprove st) w
                    (fun _ _ l => Forall improve_only (updates l))).
  { unfold handleImprove. destruct (getCurrentFile st); handler_go.
    all: cbn [updates flat_map app]; repeat constructor. }
  unfold post in Hpost. unfold effects_of.
  destruct (handleImprove st w) as [[res w'] l]. exact Hpost.
Qed.

Lemma improve_only_frame (us : list Setter) :
  Forall improve_only us ->
  forall st,
    uploadedFiles (apply_setters st us) = uploadedFiles st /\
    selectedFileIndex (apply_setters st us) = selectedFileIndex st /\
    reviewResult (apply_setters st us) = reviewResult st /\
    dryRunResult (apply_setters st us) = dryRunResult st.
Proof.
  induction 1 as [|u us Hu Hus IH]; intros st; [repeat split|].
  cbn [apply_setters fold_left].
  destruct (IH (apply_setter st u)) as (Hf & Hi & Hr & Hd).
  unfold apply_setters in *. rewrite Hf, Hi, Hr, Hd.
  destruct u; try contradiction; repeat split.
Qed.

End Run.

(** C4, at an input where the code departs from it: the dry-run end point
    answers with an error status and a JSON body (the checker could not be
    run).  The handler stores that body as the dry-run result: it has no
    [success], no [output] and no [errors], and the message is not in
    it as an error. *)
Theorem checker_http_error_is_stored_as_result :
  dryRunResult
    (replay (Scenarios.review_tab "*** Test Cases ***" "" (VStr []))
       (effects_of
          (handleDryRun
             (Scenarios.review_tab "*** Test Cases ***" "" (VStr []))
             [Scenarios.checker_failure])))
  = VObj [Scripted.fld "detail" (Scripted.str "robot: command not found")]
  /\ structured
       (dryRunResult
          (replay (Scenarios.review_tab "*** Test Cases ***" "" (VStr []))
             (effects_of
                (handleDryRun
                   (Scenarios.review_tab "*** Test Cases ***" "" (VStr []))
                   [Scenarios.checker_failure]))))
     = false
  /\ structured (dry_run_failure (js "robot: command not found")) = true.
Proof. repeat split; vm_compute; reflexivity. Qed.

(** C9: [handleImprove] leaves the uploaded files as they are, whatever
    the back end answers: the new content goes to [improvedCode] only.  The
    working copy is replaced by [applyImprovement]: it changes the content
    of the selected file and nothing else in the list of files (not its
    [name], [tcId] or [size], not the other files, not their number); when
    there is improved code and a selected file, the content becomes the
    improved code, and the improved code, the review and the dry-run
    result are reset. *)
Theorem improvement_is_applied_only_on_request {W : Type} `{World W}
    (st : State) (w : W) :
  uploadedFiles (replay st (effects_of (handleImprove st w)))
  = uploadedFiles st
  /\ length (uploadedFiles (apply_setters st (applyImprovement st)))
     = length (uploadedFiles st)
  /\ (forall j, j <> selectedFileIndex st ->
        uploadedFiles (apply_setters st (applyImprovement st)) !! j
        = uploadedFiles st !! j)
  /\ (forall file,
        uploadedFiles st !! selectedFileIndex st = Some file ->
        exists file',
          uploadedFiles (apply_setters st (applyImprovement st))
          !! selectedFileIndex st = Some file' /\
          name file' = name file /\ tcId file' = tcId file /\
          size file' = size file /\
          (truthy (improvedCode st) = true ->
           content file' = improvedCode st /\
           improvedCode (apply_setters st (applyImprovement st)) = VStr [] /\
           reviewResult (apply_setters st (applyImprovement st)) = VNull /\
           dryRunResult (apply_setters st (applyImprovement st)) = VNull)).
Proof.
  split.
  { unfold replay.
    exact (proj1 (improve_only_frame _ (handleImprove_updates st w) st)). }
  unfold applyImprovement.
  destruct (truthy (improvedCode st)) eqn:Hcode;
    [destruct (uploadedFiles st !! selectedFileIndex st) as [file|] eqn:Hsel|].
  - cbn [apply_setters fold_left apply_setter uploadedFiles improvedCode
         reviewResult dryRunResult].
    split; [apply length_insert|]. split.
    + intros j Hj. apply list_lookup_insert_ne. congruence.
    + intros file0 [= <-]. eexists. split.
      * apply list_lookup_insert_eq. eapply lookup_lt_Some. exact Hsel.
      * cbn [name tcId size content]. repeat split.
  - cbn [apply_setters fold_left]. split; [reflexivity|].
    split; [reflexivity|]. intros file0 Hfile0. discriminate Hfile0.
  - cbn [apply_setters fold_left]. split; [reflexivity|].
    split; [reflexivity|]. intros file0 Hfile0. exists file0.
    split; [exact Hfile0|]. repeat split; discriminate.
Qed.

Lemma improvement_is_applied_only_on_request_witness :
  exists file',
    uploadedFiles
      (apply_setters
         (Scenarios.review_tab "old" "add a teardown" (Scripted.str "new"))
         (applyImprovement
            (Scenarios.review_tab "old" "add a teardown"
               (Scripted.str "new"))))
    !! 0 = Some file' /\
    name file' = js "TC-1_door.robot" /\ tcId file' = js "TC-1" /\
    size file' = 120 /\
    (truthy (Scripted.str "new") = true ->
     content file' = Scripted.str "new" /\
     improvedCode
       (apply_setters
          (Scenarios.review_tab "old" "add a teardown" (Scripted.str "new"))
          (applyImprovement
             (Scenarios.review_tab "old" "add a teardown"
                (Scripted.str "new")))) = VStr [] /\
     reviewResult
       (apply_setters
          (Scenarios.review_tab "old" "add a teardown" (Scripted.str "new"))
          (applyImprovement
             (Scenarios.review_tab "old" "add a teardown"
                (Scripted.str "new")))) = VNull /\
     dryRunResult
       (apply_setters
          (Scenarios.review_tab "old" "add a teardown" (Scripted.str "new"))
          (applyImprovement
             (Scenarios.review_tab "old" "add a teardown"
                (Scripted.str "new")))) = VNull).
Proof.
  pose proof (improvement_is_applied_only_on_request
                (Scenarios.review_tab "old" "add a teardown"
                   (Scripted.str "new"))
                [Scenarios.generated "new"]) as (_ & _ & _ & Hsel).
  apply (Hsel (mkFile (js "TC-1_door.robot") (js "TC-1")
                 (Scripted.str "old") 120)).
  reflexivity.
Defined.

End ReviewFacts.

(** ** More on the Generate tab *)

Module GenerateMore.
Import JS Host GenerateTab StringFacts HostFacts GenerateFacts.

(** *** Parsing the identifiers *)

Lemma dropWhile_none {A} (p : A -> bool) (l : list A) :
  Forall (fun x => p x = false) l -> dropWhile p l = l.
Proof. destruct 1 as [|x l Hx Hl]; simpl; [|rewrite Hx]; reflexivity. Qed.

Lemma trim_clean (s : jsstring) :
  Forall (fun c => is_space c = false) s -> trim s = s.
Proof.
  intros Hs. unfold trim. rewrite (dropWhile_none _ _ Hs).
  rewrite dropWhile_none by (apply List.Forall_rev; exact Hs).
  apply rev_involutive.
Qed.

Lemma is_id_separator_space (c : N) :
  is_id_separator c = false -> is_space c = false.
Proof. intros Hc. apply is_id_separator_false in Hc. tauto. Qed.

(** The identifiers are the non-empty pieces of the split: trimming them
    changes nothing. *)
Lemma parseTestCaseIds_pieces (input : jsstring) :
  parseTestCaseIds input
  = List.filter (fun id => 0 <? length id) (split is_id_separator input).
Proof.
  unfold parseTestCaseIds. f_equal.
  pose proof (split_clean is_id_separator input) as Hclean.
  induction Hclean as [|piece l Hpiece Hl IH]; [reflexivity|].
  cbn [map]. rewrite IH, trim_clean; [reflexivity|].
  eapply List.Forall_impl; [|exact Hpiece]. apply is_id_separator_space.
Qed.

Lemma pieces_after_run (sep : N -> bool) (s : jsstring) :
  List.filter (fun id => 0 <? length id) (split_from sep true [] s)
  = List.filter (fun id => 0 <? length id) (split_from sep false [] s).
Proof. destruct s as [|c s]; [reflexivity|]. cbn. destruct (sep c); reflexivity. Qed.

Lemma pieces_app (sep : N -> bool) (c : N) (b : jsstring) :
  sep c = true ->
  forall a in_run piece,
    (in_run = true -> piece = []) ->
    List.filter (fun id => 0 <? length id)
      (split_from sep in_run piece (a ++ c :: b))
    = List.filter (fun id => 0 <? length id) (split_from sep in_run piece a)
      ++ List.filter (fun id => 0 <? length id) (split sep b).
Proof.
  intros Hc. induction a as [|x a IH]; intros in_run piece Hrun.
  - cbn [app split_from]. rewrite Hc. destruct in_run.
    + rewrite (Hrun eq_refl). cbn [rev List.filter length Nat.ltb Nat.leb app].
      apply pieces_after_run.
    + change (rev piece :: ?l) with ([rev piece] ++ l).
      rewrite List.filter_app. f_equal. apply pieces_after_run.
  - cbn [app split_from]. destruct (sep x).
    + destruct in_run.
      * apply IH. exact Hrun.
      * change (rev piece :: ?l) with ([rev piece] ++ l).
        rewrite !List.filter_app, <- app_assoc. f_equal.
        apply IH. reflexivity.
    + apply IH. discriminate.
Qed.

(** X1: identifiers typed on both sides of a separator are those of the
    left side followed by those of the right side. *)
Theorem parseTestCaseIds_app (a b : jsstring) (c : N) :
  is_id_separator c = true ->
  parseTestCaseIds (a ++ c :: b) = parseTestCaseIds a ++ parseTestCaseIds b.
Proof.
  intros Hc. rewrite !parseTestCaseIds_pieces. unfold split.
  apply pieces_app; [exact Hc | discriminate].
Qed.

Lemma parseTestCaseIds_app_witness :
  parseTestCaseIds (js "TC-1 TC-2" ++ comma :: js " TC-3")
  = parseTestCaseIds (js "TC-1 TC-2") ++ parseTestCaseIds (js " TC-3").
Proof. apply parseTestCaseIds_app. reflexivity. Defined.

Lemma split_from_piece (sep : N -> bool) (s : jsstring) :
  Forall (fun c => sep c = false) s ->
  forall piece, split_from sep false piece s = [rev piece ++ s].
Proof.
  induction 1 as [|c s Hc Hs IH]; intros piece; cbn [split_from].
  - rewrite app_nil_r. reflexivity.
  - rewrite Hc, IH. cbn [rev]. rewrite <- app_assoc. reflexivity.
Qed.

(** X2: a non-empty text without comma or white space is one identifier,
    itself. *)
Theorem parseTestCaseIds_single (id : jsstring) :
  id <> [] ->
  Forall (fun c => is_id_separator c = false) id ->
  parseTestCaseIds id = [id].
Proof.
  intros Hne Hclean. rewrite parseTestCaseIds_pieces. unfold split.
  rewrite (split_from_piece _ _ Hclean). cbn [rev app List.filter].
  destruct id; [contradiction | reflexivity].
Qed.

Lemma parseTestCaseIds_single_witness :
  parseTestCaseIds (js "TC-001") = [js "TC-001"].
Proof.
  apply parseTestCaseIds_single; [discriminate|].
  vm_compute. repeat constructor.
Defined.

Lemma no_piece (sep : N -> bool) (s : jsstring) :
  forall in_run piece,
    List.filter (fun id => 0 <? length id) (split_from sep in_run piece s)
    = [] <->
    piece = [] /\ Forall (fun c => sep c = true) s.
Proof.
  induction s as [|c s IH]; intros in_run piece; cbn [split_from].
  - cbn [List.filter]. rewrite length_rev.
    destruct piece; cbn; split; try tauto; try discriminate.
    + intros _. split; [reflexivity | constructor].
    + intros [Hp _]. discriminate Hp.
  - destruct (sep c) eqn:Hc.
    + destruct in_run.
      * rewrite IH. split; intros [Hp Hs]; split; try assumption.
        -- constructor; assumption.
        -- inversion Hs; assumption.
      * cbn [List.filter]. rewrite length_rev.
        destruct piece as [|x piece].
        -- cbn [length Nat.ltb Nat.leb]. rewrite IH.
           split; intros [Hp Hs]; split; try reflexivity.
           ++ constructor; assumption.
           ++ inversion Hs; assumption.
        -- cbn [length Nat.ltb Nat.leb]. split; [discriminate|].
           intros [Hp _]. discriminate Hp.
    + rewrite IH. split.
      * intros [Hp _]. discriminate Hp.
      * intros [_ Hs]. inversion Hs as [|? ? Hc' ?]. congruence.
Qed.

(** X3: no identifier is found exactly when the input holds nothing but
    commas and white space (the empty input included). *)
Theorem parseTestCaseIds_nil_iff (input : jsstring) :
  parseTestCaseIds input = [] <->
  Forall (fun c => is_id_separator c = true) input.
Proof.
  rewrite parseTestCaseIds_pieces. unfold split. rewrite no_piece.
  split; [intros [_ Hs]; exact Hs | intros Hs; split; [reflexivity | exact Hs]].
Qed.

(** *** Saving one file *)

Lemma replace_spaces_from_clean (s : jsstring) :
  forall in_run,
    Forall (fun c => is_space c = false) (replace_spaces_from in_run s).
Proof.
  induction s as [|c s IH]; intros in_run; cbn [replace_spaces_from];
    [constructor|].
  destruct (is_space c) eqn:Hc.
  - destruct in_run; [apply IH|]. constructor; [reflexivity | apply IH].
  - constructor; [exact Hc | apply IH].
Qed.

Section Run.
Context {W : Type} `{World W}.

(** X4: for a test case name that is a string, [saveTestFile] does not
    throw and sends exactly one request; the file name it sends is the
    identifier, an underscore and a non-empty name part (["test"] when the
    name is empty), and it holds no white space. *)
Theorem saveTestFile_file_name (folderPath tcId n : jsstring)
    (content : value) (w : W) :
  exists sr part,
    result_of (saveTestFile folderPath tcId content (VStr n) w) = Ok sr /\
    requests (effects_of (saveTestFile folderPath tcId content (VStr n) w))
    = [save_request folderPath
         (replace_spaces tcId ++ underscore :: part) content] /\
    part <> [] /\
    (n <> [] -> part = replace_spaces n) /\
    (n = [] -> part = js "test") /\
    Forall (fun c => is_space c = false)
           (replace_spaces tcId ++ underscore :: part).
Proof.
  destruct (saveTestFile folderPath tcId content (VStr n) w)
    as [[res w'] l] eqn:Hrun.
  pose proof (post_run _ _ _ _ _ _
                (saveTestFile_spec folderPath tcId content (VStr n) w) Hrun)
    as [_ Hpost].
  destruct res as [sr|e].
  2: { destruct Hpost as (_ & _ & Hn). exfalso. exact (Hn n eq_refl). }
  destruct Hpost as (Hreq & _).
  exists sr, (toStr (or_else (VStr (replace_spaces n)) (VStr (js "test")))).
  cbn [result_of effects_of fst snd].
  split; [reflexivity|]. split; [exact Hreq|].
  unfold or_else, replace_spaces. cbn [truthy].
  destruct n as [|c n].
  - cbn [replace_spaces_from is_empty negb toStr].
    split; [discriminate|]. split; [contradiction|]. split; [reflexivity|].
    apply Forall_app. split; [apply replace_spaces_from_clean|].
    vm_compute. repeat constructor.
  - assert (Hne : replace_spaces_from false (c :: n) <> []).
    { cbn [replace_spaces_from]. destruct (is_space c); discriminate. }
    destruct (replace_spaces_from false (c :: n)) as [|x r] eqn:Hr;
      [contradiction|].
    cbn [is_empty negb toStr].
    split; [discriminate|]. split; [reflexivity|]. split; [discriminate|].
    apply Forall_app. split; [apply replace_spaces_from_clean|].
    constructor; [reflexivity|]. rewrite <- Hr.
    apply replace_spaces_from_clean.
Qed.



End Run.


(** *** The batch as a whole *)

Lemma truthy_or_else (a b : value) :
  truthy b = true -> truthy (or_else a b) = true.
Proof. unfold or_else. destruct (truthy a) eqn:Ha; auto. Qed.

Section Batch.
Context {W : Type} `{World W}.

Lemma replay_tail (st : State) (l : list (Effect Setter)) (p : Progress.t) :
  isLoading (replay st (l ++ [Update (setIsLoading false);
                              Update (setCurrentProgress p)])) = false /\
  currentProgress (replay st (l ++ [Update (setIsLoading false);
                                    Update (setCurrentProgress p)])) = p.
Proof.
  unfold replay. rewrite updates_app, fold_left_app. split; reflexivity.
Qed.

(** X6: [handleGenerate] never throws.  A request that passes the checks
    ends with the loading flag down and with the closing report: current =
    total = the number of identifiers, and the count of saved files is that
    of the results it produced. *)
Theorem handleGenerate_ends_idle (st : State) (w : W) :
  result_of (handleGenerate st w) = Ok tt /\
  (canGenerate st = true ->
   isLoading (replay st (effects_of (handleGenerate st w))) = false /\
   currentProgress (replay st (effects_of (handleGenerate st w)))
   = complete st (parseTestCaseIds (testCaseIds st))
       (produced (effects_of (handleGenerate st w)))).
Proof.
  destruct (canGenerate st) eqn:Hcan.
  - rewrite (canGenerate_true st Hcan).
    destruct (runBatch_facts st (parseTestCaseIds (testCaseIds st)) w)
      as (rs & w' & l & _ & Hres & _ & _ & Hpub & _).
    split; [exact Hres|]. intros _. unfold produced. rewrite Hpub.
    destruct (runBatch_run st (parseTestCaseIds (testCaseIds st)) w)
      as (rs' & w'' & l' & Hrel' & Hrun).
    assert (Hrs : rs' = rs).
    { rewrite <- (Hpub []). rewrite Hrun. cbn [effects_of snd].
      change (updates (Update ?a :: Update ?b :: Update ?c :: ?l0))
        with (a :: b :: c :: updates l0).
      rewrite updates_app. unfold published. cbn [fold_left].
      rewrite fold_left_app. cbn [updates flat_map app fold_left].
      symmetry. apply (LoopRun_published _ _ _ _ _ _ _ _ _ Hrel'). }
    subst rs'. rewrite Hrun. cbn [effects_of snd].
    change (Update ?a :: Update ?b :: Update ?c :: ?l0 ++ ?t)
      with ((Update a :: Update b :: Update c :: l0) ++ t).
    apply replay_tail.
  - destruct (canGenerate_false st w Hcan) as (m & Hrun). rewrite Hrun.
    split; [reflexivity | discriminate].
Qed.

(** The script of an entry is never empty or missing. *)
Lemma attempt_script (st : State) (total i : nat) (id : jsstring) (w : W) :
  post (attempt st total i id) w
    (fun res _ _ => exists r, res = Ok r /\ truthy (testCode r) = true).
Proof.
  unfold attempt.
  apply post_try_catch, post_bind.
  eapply post_use; [apply fetchTestCase_spec|].
  intros res w1 l1 (d & o & -> & _).
  cbn beta iota. handler_go.
  all: try lazymatch goal with
       | |- post (saveTestFile _ _ _ _) _ _ =>
           eapply post_use; [apply saveTestFile_spec|];
           intros [sr|e'] w3 l3 _; cbn beta iota; handler_go
       end.
  all: eexists; split; [reflexivity|]; cbn [testCode].
  all: first [apply truthy_or_else; reflexivity | reflexivity].
Qed.

Lemma attempt_well_formed (st : State) (total i : nat) (id : jsstring)
    (w : W) r w' l :
  attempt st total i id w = (Ok r, w', l) ->
  tcId r = id /\
  truthy (testCode r) = true /\
  (saved r = true -> status r = StatusSuccess) /\
  (status r = StatusError ->
   exists m, error r = VStr m /\
             testCode r = VStr (error_test_code (tcId r) m)) /\
  (status r = StatusSuccess ->
   error r = VUndefined /\ exists n, testCaseName r = VStr n).
Proof.
  intros Hrun.
  pose proof (post_run _ _ _ _ _ _ (attempt_script st _ i id w) Hrun)
    as (r0 & [= <-] & Hscript).
  pose proof (post_run _ _ _ _ _ _ (attempt_spec st _ i id w) Hrun)
    as (r' & d & o & w2 & [= <-] & Hid & _ & _ & _ & _ & Hstatus).
  split; [exact Hid|]. split; [exact Hscript|].
  destruct (status r).
  - destruct Hstatus as (Herr & Hname & _).
    split; [reflexivity|]. split; [discriminate|]. intros _. auto.
  - destruct Hstatus as (Hsaved & _ & _ & m & Herr & Hcode).
    split; [rewrite Hsaved; discriminate|].
    split; [|discriminate]. intros _. exists m. rewrite Hid. auto.
Qed.

(** X7: every result of a batch carries a script (a truthy [testCode]);
    only an entry recorded as a success can be saved; an entry recorded as
    an error carries the message of the exception, in [error] and in its
    script. *)
Theorem results_are_well_formed (st : State) (w : W) :
  Forall (fun r =>
            truthy (testCode r) = true /\
            (saved r = true -> status r = StatusSuccess) /\
            (status r = StatusError ->
             exists m, error r = VStr m /\
                       testCode r = VStr (error_test_code (tcId r) m)) /\
            (status r = StatusSuccess ->
             error r = VUndefined /\ exists n, testCaseName r = VStr n))
         (produced (effects_of (handleGenerate st w))).
Proof.
  destruct (canGenerate st) eqn:Hcan.
  - rewrite (canGenerate_true st Hcan).
    destruct (runBatch_facts st (parseTestCaseIds (testCaseIds st)) w)
      as (rs & w' & l & Hrel & _ & _ & _ & Hpub & _).
    unfold produced. rewrite Hpub.
    eapply LoopRun_Forall; [|exact Hrel].
    intros i id w0 r w1 l1 Hrun.
    exact (proj2 (attempt_well_formed _ _ _ _ _ _ _ _ Hrun)).
  - destruct (canGenerate_false st w Hcan) as (m & Hrun).
    rewrite Hrun. constructor.
Qed.

Lemma cycles_Forall (st : State) (P : GenResult -> Prop)
    (Q : Request -> Prop) (rs : list GenResult) :
  (forall r d, P r -> Forall Q (cycle st (r, d))) ->
  Forall P rs ->
  forall ds, Forall Q (flat_map (cycle st) (zip rs ds)).
Proof.
  intros HPQ. induction 1 as [|r rs Hr Hrs IH]; intros ds;
    [constructor|].
  destruct ds as [|d ds]; [constructor|].
  change (flat_map (cycle st) (zip (r :: rs) (d :: ds)))
    with (cycle st (r, d) ++ flat_map (cycle st) (zip rs ds)).
  apply Forall_app. split.
  - apply HPQ. exact Hr.
  - apply IH.
Qed.

(** X23: a batch sends nothing but, for identifiers of its list, the fetch
    of the test case, the generation request with the model and the
    instructions the handler started with, and the save of a non-empty
    script into the output folder the handler started with, under the file
    name derived from the identifier and a name that is a string. *)
Theorem batch_sends_only_its_cycles (st : State) (w : W) :
  Forall (fun req =>
            exists id,
              In id (parseTestCaseIds (testCaseIds st)) /\
              (req = testcase_request id \/
               (exists d, req = generate_request st id d) \/
               (exists n code,
                   req = save_request (outputFolder st)
                           (save_filename id (VStr n)) code /\
                   truthy code = true)))
         (requests (effects_of (handleGenerate st w))).
Proof.
  destruct (canGenerate st) eqn:Hcan.
  - rewrite (canGenerate_true st Hcan).
    destruct (runBatch_facts st (parseTestCaseIds (testCaseIds st)) w)
      as (rs & w' & l & Hrel & _ & _ & Hreq & _).
    rewrite Hreq.
    destruct (LoopRun_requests _ _ _ _ _ _ _ _ _ Hrel) as (ds & _ & ->).
    pose proof (LoopRun_tcIds _ _ _ _ _ _ _ _ _ Hrel) as Hids.
    apply (cycles_Forall st
             (fun r => In (tcId r) (parseTestCaseIds (testCaseIds st)) /\
                       truthy (testCode r) = true /\
                       (status r = StatusSuccess ->
                        exists n, testCaseName r = VStr n))).
    + intros r d (Hin & Hcode & Hname). unfold cycle, saves_of.
      cbn [fst snd]. constructor; [|constructor].
      * exists (tcId r). auto.
      * exists (tcId r). split; [exact Hin|]. right; left. eauto.
      * destruct (status r); [|constructor].
        destruct (Hname eq_refl) as (n & Hn).
        constructor; [|constructor].
        exists (tcId r). split; [exact Hin|]. right; right.
        exists n, (testCode r). rewrite Hn. auto.
    + assert (Hmem : Forall (fun r => In (tcId r)
                 (parseTestCaseIds (testCaseIds st))) rs).
      { rewrite <- Hids. apply List.Forall_forall. intros r Hr.
        apply in_map. exact Hr. }
      pose proof (LoopRun_Forall _ st _
                    (fun i id w0 r w1 l1 Hrun =>
                       proj2 (attempt_well_formed st _ i id w0 r w1 l1 Hrun))
                    _ _ _ _ _ _ _ Hrel) as Hwf.
      clear Hids Hrel. induction Hmem as [|r rs Hr Hrs IH];
        [constructor|].
      inversion Hwf as [|? ? (Hcode & _ & _ & Hname) Hwf']; subst.
      constructor; [|apply IH; exact Hwf'].
      split; [exact Hr|]. split; [exact Hcode|].
      intros Hs. exact (proj2 (Hname Hs)).
  - destruct (canGenerate_false st w Hcan) as (m & Hrun).
    rewrite Hrun. constructor.
Qed.




End Batch.


Lemma handleGenerate_ends_idle_witness :
  isLoading
    (replay (Scenarios.generate_tab "TC-1, TC-2" "out")
       (effects_of
          (handleGenerate (Scenarios.generate_tab "TC-1, TC-2" "out")
             [Scenarios.not_found; Scenarios.network_down])))
  = false.
Proof.
  pose proof (handleGenerate_ends_idle
                (Scenarios.generate_tab "TC-1, TC-2" "out")
                [Scenarios.not_found; Scenarios.network_down]) as [_ Hidle].
  apply Hidle. reflexivity.
Defined.

End GenerateMore.

(** ** More on the Review tab *)

Module ReviewMore.
Import JS Host ReviewTab ReviewFiles HostFacts.

(** *** The identifier of an uploaded file *)

Lemma tc_char_not_space (c : N) : is_tc_char c = true -> is_space c = false.
Proof.
  unfold is_tc_char, is_space, underscore. intros Hc.
  apply not_true_is_false. intros Hs.
  repeat rewrite ?orb_true_iff, ?andb_true_iff, ?N.leb_le, ?N.eqb_eq in Hc.
  repeat rewrite ?orb_true_iff, ?andb_true_iff, ?N.leb_le, ?N.eqb_eq in Hs.
  lia.
Qed.

Lemma replace_spaces_from_none (s : jsstring) :
  Forall (fun c => is_space c = false) s ->
  forall in_run, replace_spaces_from in_run s = s.
Proof.
  induction 1 as [|c s Hc Hs IH]; intros in_run; cbn [replace_spaces_from];
    [reflexivity|].
  rewrite Hc, IH. reflexivity.
Qed.

Lemma tc_group_from_found (mid rest : jsstring) :
  Forall (fun c => is_tc_char c = true /\ c <> underscore) mid ->
  forall group,
    tc_group_from group (mid ++ underscore :: rest) = Some (rev group ++ mid).
Proof.
  induction 1 as [|c mid [Hc Hu] Hmid IH]; intros group;
    cbn [app tc_group_from].
  - rewrite N.eqb_refl, app_nil_r. reflexivity.
  - apply N.eqb_neq in Hu. rewrite Hu, Hc, IH. cbn [rev].
    rewrite <- app_assoc. reflexivity.
Qed.

Lemma first_underscore_group (head : N) (mid rest : jsstring) :
  is_tc_char head = true ->
  Forall (fun c => is_tc_char c = true /\ c <> underscore) mid ->
  parseTcIdFromFilename (head :: mid ++ underscore :: rest) = head :: mid.
Proof.
  intros Hhead Hmid. unfold parseTcIdFromFilename, match_tc_group.
  rewrite Hhead, (tc_group_from_found _ _ Hmid). reflexivity.
Qed.

(** X10: when a file name starts with a character of the class and the
    characters up to its next underscore are all in the class, the
    identifier is the text in front of that underscore: what stands after
    it plays no role, and an identifier that holds an underscore itself is
    cut at it. *)
Theorem parseTcIdFromFilename_first_underscore (head : N)
    (mid rest : jsstring) :
  is_tc_char head = true ->
  Forall (fun c => is_tc_char c = true /\ c <> underscore) mid ->
  parseTcIdFromFilename (head :: mid ++ underscore :: rest) = head :: mid.
Proof.
  intros Hhead Hmid. unfold parseTcIdFromFilename, match_tc_group.
  rewrite Hhead.
  pose proof (tc_group_from_found mid rest Hmid [head]) as Hgroup.
  cbn [rev app] in Hgroup. rewrite Hgroup. reflexivity.
Qed.

Lemma parseTcIdFromFilename_first_underscore_witness :
  parseTcIdFromFilename (js "TC_001_door.robot") = js "TC".
Proof.
  apply (parseTcIdFromFilename_first_underscore 84%N (js "C")
           (js "001_door.robot")).
  - reflexivity.
  - vm_compute. repeat constructor; discriminate.
Defined.

(** X11: a script saved by the Generate tab is recognised by the Review
    tab: for an identifier made of letters, digits and hyphens, the
    identifier parsed from the saved file name, whatever the test case name
    and the extension, is the identifier it was generated for. *)
Theorem saved_file_name_gives_back_the_identifier (id n ext : jsstring) :
  id <> [] ->
  Forall (fun c => is_tc_char c = true /\ c <> underscore) id ->
  parseTcIdFromFilename (GenerateTab.save_filename id (VStr n) ++ ext) = id.
Proof.
  intros Hne Hid.
  assert (Hclean : replace_spaces id = id).
  { apply replace_spaces_from_none.
    eapply List.Forall_impl; [|exact Hid].
    intros c [Hc _]. apply tc_char_not_space. exact Hc. }
  unfold GenerateTab.save_filename, GenerateTab.filename_of.
  rewrite Hclean.
  destruct id as [|head mid]; [contradiction|].
  inversion Hid as [|? ? [Hhead _] Hmid]; subst.
  change (js "_") with [underscore].
  rewrite <- !app_assoc. cbn [app].
  apply first_underscore_group; assumption.
Qed.

Lemma saved_file_name_gives_back_the_identifier_witness :
  parseTcIdFromFilename
    (GenerateTab.save_filename (js "TC-001") (VStr (js "Door lock"))
     ++ js ".robot")
  = js "TC-001".
Proof.
  apply saved_file_name_gives_back_the_identifier.
  - discriminate.
  - vm_compute. repeat constructor; discriminate.
Defined.

Lemma tc_group_from_none (s : jsstring) :
  Forall (fun c => c <> underscore) s ->
  forall group, tc_group_from group s = None.
Proof.
  induction 1 as [|c s Hc Hs IH]; intros group; cbn [tc_group_from];
    [reflexivity|].
  apply N.eqb_neq in Hc. rewrite Hc, IH. destruct (is_tc_char c); reflexivity.
Qed.

Lemma remove_first_suffix (base : jsstring) :
  Forall (fun c => c <> 46%N) base ->
  remove_first (js ".robot") (base ++ js ".robot") = base.
Proof.
  induction 1 as [|c base Hc Hbase IH]; [reflexivity|].
  cbn [app]. change (js ".robot") with (46%N :: js "robot") at 1.
  cbn [remove_first strip_prefix].
  assert (Hne : (46 =? c)%N = false) by (apply N.eqb_neq; congruence).
  rewrite Hne. f_equal. exact IH.
Qed.

(** X12: a file name without underscore has no identifier part; the
    identifier is then the name without its first [.robot], so that of
    [base.robot] is [base] when [base] holds no dot. *)
Theorem parseTcIdFromFilename_without_underscore (base : jsstring) :
  Forall (fun c => c <> underscore /\ c <> 46%N) base ->
  parseTcIdFromFilename (base ++ js ".robot") = base.
Proof.
  intros Hbase. unfold parseTcIdFromFilename.
  assert (Hnone : match_tc_group (base ++ js ".robot") = None).
  { unfold match_tc_group.
    assert (Hall : Forall (fun c => c <> underscore) (base ++ js ".robot")).
    { apply Forall_app. split.
      - eapply List.Forall_impl; [|exact Hbase]. intros c [Hc _]. exact Hc.
      - vm_compute. repeat constructor; discriminate. }
    destruct (base ++ js ".robot") as [|c s]; [reflexivity|].
    inversion Hall; subst.
    destruct (is_tc_char c); [apply tc_group_from_none; assumption|].
    reflexivity. }
  rewrite Hnone. apply remove_first_suffix.
  eapply List.Forall_impl; [|exact Hbase]. intros c [_ Hc]. exact Hc.
Qed.

Lemma parseTcIdFromFilename_without_underscore_witness :
  parseTcIdFromFilename (js "smoke" ++ js ".robot") = js "smoke".
Proof.
  apply parseTcIdFromFilename_without_underscore.
  vm_compute. repeat constructor; discriminate.
Defined.

(** *** The list of files *)

Lemma drop_index_from_past (l : list UploadedFile) :
  forall i index, index < i -> drop_index_from i index l = l.
Proof.
  induction l as [|x l IH]; intros i index Hlt; cbn [drop_index_from];
    [reflexivity|].
  destruct (Nat.eqb_spec i index); [lia|].
  rewrite IH by lia. reflexivity.
Qed.

Lemma drop_index_from_delete (l : list UploadedFile) :
  forall i index,
    i <= index -> drop_index_from i index l = delete (index - i) l.
Proof.
  induction l as [|x l IH]; intros i index Hle; cbn [drop_index_from];
    [reflexivity|].
  destruct (Nat.eqb_spec i index) as [->|Hne].
  - rewrite Nat.sub_diag. cbn. apply drop_index_from_past. lia.
  - rewrite IH by lia.
    replace (index - i) with (S (index - S i)) by lia. reflexivity.
Qed.

Lemma removeFile_state (st : State) (index : nat) :
  uploadedFiles (apply_actions st (removeFile st index))
  = delete index (uploadedFiles st) /\
  selectedFileIndex (apply_actions st (removeFile st index))
  = (if (Z.of_nat (selectedFileIndex st)
         >=? Z.of_nat (length (uploadedFiles st)) - 1)%Z
     then Z.to_nat (Z.max 0 (Z.of_nat (length (uploadedFiles st)) - 2))
     else selectedFileIndex st).
Proof.
  unfold removeFile.
  destruct (Z.of_nat (selectedFileIndex st)
            >=? Z.of_nat (length (uploadedFiles st)) - 1)%Z;
    cbn [apply_actions fold_left apply_action uploadedFiles
         selectedFileIndex];
    rewrite drop_index_from_delete by lia; rewrite Nat.sub_0_r;
    split; reflexivity.
Qed.

(** X13: removing the file at a position of the list takes out that entry
    and no other, and keeps the rest in order; if the selection pointed
    into the list and files remain, it still points into the list. *)
Theorem removeFile_keeps_selection_in_range (st : State) (index : nat) :
  index < length (uploadedFiles st) ->
  uploadedFiles (apply_actions st (removeFile st index))
  = delete index (uploadedFiles st) /\
  S (length (uploadedFiles (apply_actions st (removeFile st index))))
  = length (uploadedFiles st) /\
  (selectedFileIndex st < length (uploadedFiles st) ->
   0 < length (uploadedFiles (apply_actions st (removeFile st index))) ->
   selectedFileIndex (apply_actions st (removeFile st index))
   < length (uploadedFiles (apply_actions st (removeFile st index)))).
Proof.
  intros Hindex. destruct (removeFile_state st index) as [Hfiles Hsel].
  rewrite Hfiles, Hsel.
  assert (Hlen : S (length (delete index (uploadedFiles st)))
                 = length (uploadedFiles st)).
  { rewrite length_delete by (apply lookup_lt_is_Some; exact Hindex). lia. }
  split; [reflexivity|]. split; [exact Hlen|].
  intros Hin Hsome.
  destruct (Z.of_nat (selectedFileIndex st)
            >=? Z.of_nat (length (uploadedFiles st)) - 1)%Z eqn:Hge.
  - lia.
  - rewrite Z.geb_leb in Hge. apply Z.leb_gt in Hge. lia.
Qed.

Lemma removeFile_keeps_selection_in_range_witness :
  selectedFileIndex
    (apply_actions
       (mkState [] [mkFile (js "a") (js "a") VNull 1;
                    mkFile (js "b") (js "b") VNull 2]
          1 VNull VNull [] (VStr []) false false false)
       (removeFile
          (mkState [] [mkFile (js "a") (js "a") VNull 1;
                       mkFile (js "b") (js "b") VNull 2]
             1 VNull VNull [] (VStr []) false false false) 1))
  < length
      (uploadedFiles
         (apply_actions
            (mkState [] [mkFile (js "a") (js "a") VNull 1;
                         mkFile (js "b") (js "b") VNull 2]
               1 VNull VNull [] (VStr []) false false false)
            (removeFile
               (mkState [] [mkFile (js "a") (js "a") VNull 1;
                            mkFile (js "b") (js "b") VNull 2]
                  1 VNull VNull [] (VStr []) false false false) 1))).
Proof.
  apply (removeFile_keeps_selection_in_range
           (mkState [] [mkFile (js "a") (js "a") VNull 1;
                        mkFile (js "b") (js "b") VNull 2]
              1 VNull VNull [] (VStr []) false false false) 1).
  - vm_compute. lia.
  - vm_compute. lia.
  - vm_compute. lia.
Defined.

(** X14: what is selected after a removal.  Removing a file after the
    selected one leaves the selected file selected.  Removing the selected
    file or one before it, while the selected file is not the last, selects
    the file that followed the selected one.  Removing a file before the
    selected one when that is the last leaves it selected. *)
Theorem removeFile_selected_file (st : State) (index : nat) :
  index < length (uploadedFiles st) ->
  selectedFileIndex st < length (uploadedFiles st) ->
  (selectedFileIndex st < index ->
   getCurrentFile (apply_actions st (removeFile st index))
   = getCurrentFile st) /\
  (index <= selectedFileIndex st ->
   S (selectedFileIndex st) < length (uploadedFiles st) ->
   getCurrentFile (apply_actions st (removeFile st index))
   = uploadedFiles st !! S (selectedFileIndex st)) /\
  (index < selectedFileIndex st ->
   S (selectedFileIndex st) = length (uploadedFiles st) ->
   getCurrentFile (apply_actions st (removeFile st index))
   = getCurrentFile st).
Proof.
  intros Hindex Hsel. unfold getCurrentFile.
  destruct (removeFile_state st index) as [Hfiles Hnew].
  rewrite Hfiles, Hnew.
  destruct (Z.of_nat (selectedFileIndex st)
            >=? Z.of_nat (length (uploadedFiles st)) - 1)%Z eqn:Hge.
  - apply Z.geb_le in Hge.
    split; [intros; lia|]. split; [intros; lia|].
    intros Hlt Hlast.
    replace (Z.to_nat (Z.max 0 (Z.of_nat (length (uploadedFiles st)) - 2)))
      with (selectedFileIndex st - 1) by lia.
    rewrite list_lookup_delete_ge by lia.
    f_equal. lia.
  - rewrite Z.geb_leb in Hge. apply Z.leb_gt in Hge.
    split; [|split].
    + intros Hlt. apply list_lookup_delete_lt. exact Hlt.
    + intros Hle _. apply list_lookup_delete_ge. exact Hle.
    + intros; lia.
Qed.

Lemma removeFile_selected_file_witness :
  getCurrentFile
    (apply_actions
       (mkState [] [mkFile (js "a") (js "a") VNull 1;
                    mkFile (js "b") (js "b") VNull 2;
                    mkFile (js "c") (js "c") VNull 3]
          1 VNull VNull [] (VStr []) false false false)
       (removeFile
          (mkState [] [mkFile (js "a") (js "a") VNull 1;
                       mkFile (js "b") (js "b") VNull 2;
                       mkFile (js "c") (js "c") VNull 3]
             1 VNull VNull [] (VStr []) false false false) 0))
  = Some (mkFile (js "c") (js "c") VNull 3).
Proof.
  pose proof (removeFile_selected_file
                (mkState [] [mkFile (js "a") (js "a") VNull 1;
                             mkFile (js "b") (js "b") VNull 2;
                             mkFile (js "c") (js "c") VNull 3]
                   1 VNull VNull [] (VStr []) false false false) 0)
    as Hthm.
  destruct Hthm as (_ & Hnext & _).
  - vm_compute. lia.
  - vm_compute. lia.
  - apply Hnext; vm_compute; lia.
Defined.

(** X15: clearing the list empties it, puts the selection back to 0 and
    drops the review and the dry-run result, but keeps the improved code;
    after it the three handlers return at once, without a request or a
    state change, and the improved code cannot be applied. *)
Theorem clearAllFiles_leaves_nothing_to_act_on {W : Type} `{World W}
    (st : State) (w : W) :
  uploadedFiles (apply_actions st clearAllFiles) = [] /\
  selectedFileIndex (apply_actions st clearAllFiles) = 0 /\
  reviewResult (apply_actions st clearAllFiles) = VNull /\
  dryRunResult (apply_actions st clearAllFiles) = VNull /\
  improvedCode (apply_actions st clearAllFiles) = improvedCode st /\
  handleDryRun (apply_actions st clearAllFiles) w = (Ok tt, w, []) /\
  handleImprove (apply_actions st clearAllFiles) w = (Ok tt, w, []) /\
  handleReview (apply_actions st clearAllFiles) w = (Ok tt, w, []) /\
  applyImprovement (apply_actions st clearAllFiles) = [].
Proof.
  repeat split.
  unfold applyImprovement. cbn. destruct (truthy (improvedCode st)); reflexivity.
Qed.

Lemma read_all_entries (files : list InputFile) :
  forall fileData,
    read_all files = Some fileData ->
    map name fileData = map file_name files /\
    map size fileData = map file_size files /\
    map content fileData
    = map (fun f => match file_text f with
                    | Some text => VStr text
                    | None => VUndefined
                    end) files /\
    Forall (fun f => tcId f = parseTcIdFromFilename (name f)) fileData.
Proof.
  induction files as [|file files IH]; intros fileData Hread;
    cbn [read_all] in Hread.
  - injection Hread as <-. repeat split. constructor.
  - destruct (file_text file) as [text|] eqn:Htext; [|discriminate].
    destruct (read_all files) as [rest|]; [|discriminate].
    injection Hread as <-.
    destruct (IH rest eq_refl) as (Hn & Hs & Hc & Ht).
    cbn [map name size content]. rewrite Hn, Hs, Hc, Htext.
    repeat split. constructor; [reflexivity | exact Ht].
Qed.

Lemma read_all_loaded (files : list InputFile) :
  Forall (fun f => is_Some (file_text f)) files ->
  exists fileData, read_all files = Some fileData.
Proof.
  induction 1 as [|file files [text Htext] Hfiles [rest IH]];
    cbn [read_all]; [eexists; reflexivity|].
  rewrite Htext, IH. eexists. reflexivity.
Qed.

Lemma read_all_blocked (files : list InputFile) :
  Exists (fun f => file_text f = None) files -> read_all files = None.
Proof.
  induction 1 as [file files Htext | file files Hex IH]; cbn [read_all].
  - rewrite Htext. reflexivity.
  - rewrite IH. destruct (file_text file); reflexivity.
Qed.

(** X16: an upload never removes or moves the files already listed and
    appends one entry per picked file, in the order picked, under the name
    and with the size and the text of the file; when the read of one file
    never loads, nothing is added at all.  The selection moves (back to
    position 0) only when the list the handler closed over was empty. *)
Theorem handleFileUpload_appends (closure st : State)
    (files : list InputFile) :
  (forall i f,
      uploadedFiles st !! i = Some f ->
      uploadedFiles (apply_actions st (handleFileUpload closure files)) !! i
      = Some f) /\
  (Exists (fun f => file_text f = None) files ->
   apply_actions st (handleFileUpload closure files) = st) /\
  (Forall (fun f => is_Some (file_text f)) files ->
   exists fileData,
     uploadedFiles (apply_actions st (handleFileUpload closure files))
     = uploadedFiles st ++ fileData /\
     map name fileData = map file_name files /\
     map size fileData = map file_size files /\
     map content fileData
     = map (fun f => match file_text f with
                     | Some text => VStr text
                     | None => VUndefined
                     end) files) /\
  (uploadedFiles closure <> [] ->
   selectedFileIndex (apply_actions st (handleFileUpload closure files))
   = selectedFileIndex st).
Proof.
  assert (Hshape :
    handleFileUpload closure files = [] \/
    exists fileData,
      read_all files = Some fileData /\
      (handleFileUpload closure files
       = [updateUploadedFiles (fun prev => prev ++ fileData)] \/
       (uploadedFiles closure = [] /\
        handleFileUpload closure files
        = [updateUploadedFiles (fun prev => prev ++ fileData);
           setSelectedFileIndex 0]))).
  { unfold handleFileUpload. destruct (0 <? length files); [|left; reflexivity].
    destruct (read_all files) as [fileData|]; [|left; reflexivity].
    right. exists fileData. split; [reflexivity|].
    destruct (uploadedFiles closure); [right | left]; auto. }
  split; [|split; [|split]].
  - intros i f Hi.
    destruct Hshape as [-> | (fileData & _ & [-> | [_ ->]])];
      cbn [apply_actions fold_left apply_action uploadedFiles];
      try exact Hi; apply lookup_app_l_Some; exact Hi.
  - intros Hblocked. unfold handleFileUpload.
    rewrite (read_all_blocked _ Hblocked).
    destruct (0 <? length files); reflexivity.
  - intros Hloaded. destruct (read_all_loaded _ Hloaded) as (fileData & Hread).
    destruct (read_all_entries _ _ Hread) as (Hn & Hs & Hc & _).
    unfold handleFileUpload. rewrite Hread.
    destruct files as [|file files].
    + cbn in Hread. injection Hread as <-. exists [].
      cbn. rewrite app_nil_r. repeat split.
    + exists fileData. cbn [length Nat.ltb Nat.leb].
      destruct (length (uploadedFiles closure) =? 0);
        cbn [apply_actions fold_left apply_action uploadedFiles];
        repeat split; assumption.
  - intros Hclosure.
    destruct Hshape as [-> | (fileData & _ & [-> | [Hnil _]])];
      [reflexivity | reflexivity | contradiction].
Qed.

Lemma handleFileUpload_appends_witness :
  apply_actions (Scenarios.review_tab "old" "" (VStr []))
    (handleFileUpload (Scenarios.review_tab "old" "" (VStr []))
       [mkInput (js "TC-2_x.robot") (Some (js "text")) 4;
        mkInput (js "TC-3_y.robot") None 9])
  = Scenarios.review_tab "old" "" (VStr []).
Proof.
  pose proof (handleFileUpload_appends
                (Scenarios.review_tab "old" "" (VStr []))
                (Scenarios.review_tab "old" "" (VStr []))
                [mkInput (js "TC-2_x.robot") (Some (js "text")) 4;
                 mkInput (js "TC-3_y.robot") None 9])
    as (_ & Hblocked & _).
  apply Hblocked. right. left. reflexivity.
Defined.

Lemma drop_index_from_Forall (P : UploadedFile -> Prop)
    (l : list UploadedFile) :
  Forall P l -> forall i index, Forall P (drop_index_from i index l).
Proof.
  induction 1 as [|x l Hx Hl IH]; intros i index; cbn [drop_index_from];
    [constructor|].
  destruct (i =? index); [apply IH | constructor; [exact Hx | apply IH]].
Qed.

(** X17: the identifier of every listed file is the one parsed from its
    name.  This holds of the empty list and is kept by every operation on
    the list: upload, removal, clearing, and applying an improvement. *)
Theorem tcId_is_parsed_from_the_name (st : State) :
  Forall (fun f => tcId f = parseTcIdFromFilename (name f))
         (uploadedFiles st) ->
  (forall closure files,
      Forall (fun f => tcId f = parseTcIdFromFilename (name f))
        (uploadedFiles (apply_actions st (handleFileUpload closure files))))
  /\ (forall index,
         Forall (fun f => tcId f = parseTcIdFromFilename (name f))
           (uploadedFiles (apply_actions st (removeFile st index))))
  /\ Forall (fun f => tcId f = parseTcIdFromFilename (name f))
        (uploadedFiles (apply_actions st clearAllFiles))
  /\ Forall (fun f => tcId f = parseTcIdFromFilename (name f))
        (uploadedFiles (apply_setters st (applyImprovement st))).
Proof.
  intros Hinv. split; [|split; [|split]].
  - intros closure files. unfold handleFileUpload.
    destruct (0 <? length files); [|exact Hinv].
    destruct (read_all files) as [fileData|] eqn:Hread; [|exact Hinv].
    destruct (read_all_entries _ _ Hread) as (_ & _ & _ & Hnew).
    destruct (length (uploadedFiles closure) =? 0);
      cbn [apply_actions fold_left apply_action uploadedFiles];
      apply Forall_app; split; assumption.
  - intros index. unfold removeFile.
    destruct (Z.of_nat (selectedFileIndex st)
              >=? Z.of_nat (length (uploadedFiles st)) - 1)%Z;
      cbn [apply_actions fold_left apply_action uploadedFiles];
      apply drop_index_from_Forall; exact Hinv.
  - constructor.
  - unfold applyImprovement.
    destruct (truthy (improvedCode st)); [|exact Hinv].
    destruct (uploadedFiles st !! selectedFileIndex st) as [file|] eqn:Hsel;
      [|exact Hinv].
    cbn [apply_setters fold_left apply_setter uploadedFiles].
    apply Forall_insert; [exact Hinv|]. cbn [tcId name].
    rewrite Forall_lookup in Hinv. exact (Hinv _ _ Hsel).
Qed.

Lemma tcId_is_parsed_from_the_name_witness :
  Forall (fun f => tcId f = parseTcIdFromFilename (name f))
    (uploadedFiles
       (apply_actions (Scenarios.review_tab "old" "" (VStr []))
          (handleFileUpload (Scenarios.review_tab "old" "" (VStr []))
             [mkInput (js "TC-2_x.robot") (Some (js "text")) 4]))).
Proof.
  pose proof (tcId_is_parsed_from_the_name
                (Scenarios.review_tab "old" "" (VStr []))) as Hthm.
  destruct Hthm as (Hupload & _).
  - vm_compute. repeat constructor.
  - apply Hupload.
Defined.

(** *** The three handlers *)

Section Run.
Context {W : Type} `{World W}.

(** X18: [handleReview] never throws and touches neither the files, nor
    the selection, nor the dry-run result, nor the improved code.  With a
    file selected it sends exactly one request, for that file, and ends
    with the reviewing flag down, whatever the back end answers; without
    one it returns at once. *)
Theorem handleReview_is_contained (st : State) (w : W) :
  result_of (handleReview st w) = Ok tt /\
  uploadedFiles (ReviewFiles.replay st (effects_of (handleReview st w)))
  = uploadedFiles st /\
  selectedFileIndex (ReviewFiles.replay st (effects_of (handleReview st w)))
  = selectedFileIndex st /\
  dryRunResult (ReviewFiles.replay st (effects_of (handleReview st w)))
  = dryRunResult st /\
  improvedCode (ReviewFiles.replay st (effects_of (handleReview st w)))
  = improvedCode st /\
  match getCurrentFile st with
  | Some file =>
      requests (effects_of (handleReview st w)) = [review_request st file] /\
      isReviewing (ReviewFiles.replay st (effects_of (handleReview st w)))
      = false
  | None => handleReview st w = (Ok tt, w, [])
  end.
Proof.
  assert (Hpost : post (handleReview st) w (fun res w' l =>
    res = Ok tt /\
    uploadedFiles (ReviewFiles.replay st l) = uploadedFiles st /\
    selectedFileIndex (ReviewFiles.replay st l) = selectedFileIndex st /\
    dryRunResult (ReviewFiles.replay st l) = dryRunResult st /\
    improvedCode (ReviewFiles.replay st l) = improvedCode st /\
    match getCurrentFile st with
    | Some file =>
        requests l = [review_request st file] /\
        isReviewing (ReviewFiles.replay st l) = false
    | None => w' = w /\ l = []
    end)).
  { unfold handleReview. destruct (getCurrentFile st); handler_go.
    all: repeat split. }
  unfold post in Hpost. unfold result_of, effects_of.
  destruct (handleReview st w) as [[res w'] l]. cbn [fst snd].
  destruct Hpost as (-> & Hf & Hs & Hd & Hi & Hrest).
  repeat (split; [assumption || reflexivity|]).
  destruct (getCurrentFile st); [exact Hrest|].
  destruct Hrest as [-> ->]. reflexivity.
Qed.


(** X20: [handleImprove] never throws and touches neither the files, nor
    the selection, nor the review, nor the dry-run result.  With a file
    selected and a request that is not blank it sends exactly one request
    and ends with the improving flag down; otherwise it returns at once. *)
Theorem handleImprove_is_contained (st : State) (w : W) :
  result_of (handleImprove st w) = Ok tt /\
  uploadedFiles (ReviewTab.replay st (effects_of (handleImprove st w)))
  = uploadedFiles st /\
  selectedFileIndex (ReviewTab.replay st (effects_of (handleImprove st w)))
  = selectedFileIndex st /\
  reviewResult (ReviewTab.replay st (effects_of (handleImprove st w)))
  = reviewResult st /\
  dryRunResult (ReviewTab.replay st (effects_of (handleImprove st w)))
  = dryRunResult st /\
  match getCurrentFile st with
  | Some file =>
      if is_empty (trim (improvementRequest st))
      then handleImprove st w = (Ok tt, w, [])
      else requests (effects_of (handleImprove st w))
           = [improve_request st file] /\
           isImproving
             (ReviewTab.replay st (effects_of (handleImprove st w)))
           = false
  | None => handleImprove st w = (Ok tt, w, [])
  end.
Proof.
  assert (Hpost : post (handleImprove st) w (fun res w' l =>
    res = Ok tt /\
    uploadedFiles (ReviewTab.replay st l) = uploadedFiles st /\
    selectedFileIndex (ReviewTab.replay st l) = selectedFileIndex st /\
    reviewResult (ReviewTab.replay st l) = reviewResult st /\
    dryRunResult (ReviewTab.replay st l) = dryRunResult st /\
    match getCurrentFile st with
    | Some file =>
        if is_empty (trim (improvementRequest st))
        then w' = w /\ l = []
        else requests l = [improve_request st file] /\
             isImproving (ReviewTab.replay st l) = false
    | None => w' = w /\ l = []
    end)).
  { unfold handleImprove. destruct (getCurrentFile st);
      [destruct (is_empty (trim (improvementRequest st)))|]; handler_go.
    all: repeat split. }
  unfold post in Hpost. unfold result_of, effects_of.
  destruct (handleImprove st w) as [[res w'] l]. cbn [fst snd].
  destruct Hpost as (-> & Hf & Hs & Hr & Hd & Hrest).
  repeat (split; [assumption || reflexivity|]).
  destruct (getCurrentFile st);
    [destruct (is_empty (trim (improvementRequest st)))|];
    try exact Hrest; destruct Hrest as [-> ->]; reflexivity.
Qed.

(** X21: a failed improvement can be applied.  When the request of
    [handleImprove] is rejected or its answer cannot be parsed, the
    improved code becomes the comment [# Error: message]; it is not empty,
    so [applyImprovement] then replaces the content of the selected file
    with that comment. *)
Theorem failed_improvement_can_be_applied (st : State) (file : UploadedFile)
    (w w1 : W) (o : Outcome) (e : Error) :
  getCurrentFile st = Some file ->
  is_empty (trim (improvementRequest st)) = false ->
  http w (improve_request st file) = (o, w1) ->
  o = Rejected e \/ (exists b, o = Resolved (mkResponse b (Unparsable e))) ->
  improvedCode (ReviewTab.replay st (effects_of (handleImprove st w)))
  = VStr (js "# Error: " ++ message e) /\
  uploadedFiles
    (apply_setters (ReviewTab.replay st (effects_of (handleImprove st w)))
       (applyImprovement
          (ReviewTab.replay st (effects_of (handleImprove st w)))))
  !! selectedFileIndex st
  = Some (mkFile (name file) (tcId file)
            (VStr (js "# Error: " ++ message e)) (size file)).
Proof.
  intros Hfile Hreq Hhttp Ho.
  assert (Hrun :
    ReviewTab.replay st (effects_of (handleImprove st w))
    = mkState (selectedModel st) (uploadedFiles st) (selectedFileIndex st)
        (reviewResult st) (dryRunResult st) (improvementRequest st)
        (VStr (js "# Error: " ++ message e))
        (isReviewing st) (isDryRunning st) false).
  { unfold handleImprove, finally, try_catch, bind, fetch, json, update,
      emit, ret, throw.
    rewrite Hfile, Hreq, Hhttp.
    destruct Ho as [-> | [b ->]]; reflexivity. }
  rewrite Hrun. split; [reflexivity|].
  unfold applyImprovement.
  cbn [improvedCode uploadedFiles selectedFileIndex].
  change (truthy (VStr (js "# Error: " ++ message e))) with true.
  cbn beta iota. unfold getCurrentFile in Hfile. rewrite Hfile.
  cbn [apply_setters fold_left apply_setter uploadedFiles].
  apply list_lookup_insert_eq. eapply lookup_lt_Some. exact Hfile.
Qed.

(** X22: [handleDryRun] never throws and touches neither the files, nor
    the selection, nor the review, nor the improved code.  With a file
    selected it sends exactly one request, with the content of that file,
    and ends with the dry-running flag down; without one it returns at
    once. *)
Theorem handleDryRun_is_contained (st : State) (w : W) :
  result_of (handleDryRun st w) = Ok tt /\
  uploadedFiles (ReviewTab.replay st (effects_of (handleDryRun st w)))
  = uploadedFiles st /\
  selectedFileIndex (ReviewTab.replay st (effects_of (handleDryRun st w)))
  = selectedFileIndex st /\
  reviewResult (ReviewTab.replay st (effects_of (handleDryRun st w)))
  = reviewResult st /\
  improvedCode (ReviewTab.replay st (effects_of (handleDryRun st w)))
  = improvedCode st /\
  match getCurrentFile st with
  | Some file =>
      requests (effects_of (handleDryRun st w)) = [dry_run_request file] /\
      isDryRunning (ReviewTab.replay st (effects_of (handleDryRun st w)))
      = false
  | None => handleDryRun st w = (Ok tt, w, [])
  end.
Proof.
  assert (Hpost : post (handleDryRun st) w (fun res w' l =>
    res = Ok tt /\
    uploadedFiles (ReviewTab.replay st l) = uploadedFiles st /\
    selectedFileIndex (ReviewTab.replay st l) = selectedFileIndex st /\
    reviewResult (ReviewTab.replay st l) = reviewResult st /\
    improvedCode (ReviewTab.replay st l) = improvedCode st /\
    match getCurrentFile st with
    | Some file =>
        requests l = [dry_run_request file] /\
        isDryRunning (ReviewTab.replay st l) = false
    | None => w' = w /\ l = []
    end)).
  { unfold handleDryRun. destruct (getCurrentFile st); handler_go.
    all: repeat split. }
  unfold post in Hpost. unfold result_of, effects_of.
  destruct (handleDryRun st w) as [[res w'] l]. cbn [fst snd].
  destruct Hpost as (-> & Hf & Hs & Hr & Hi & Hrest).
  repeat (split; [assumption || reflexivity|]).
  destruct (getCurrentFile st); [exact Hrest|].
  destruct Hrest as [-> ->]. reflexivity.
Qed.

End Run.


Lemma failed_improvement_can_be_applied_witness :
  uploadedFiles
    (apply_setters
       (ReviewTab.replay
          (Scenarios.review_tab "old" "add a teardown" (VStr []))
          (effects_of
             (handleImprove
                (Scenarios.review_tab "old" "add a teardown" (VStr []))
                [Scenarios.network_down])))
       (applyImprovement
          (ReviewTab.replay
             (Scenarios.review_tab "old" "add a teardown" (VStr []))
             (effects_of
                (handleImprove
                   (Scenarios.review_tab "old" "add a teardown" (VStr []))
                   [Scenarios.network_down])))))
  !! 0
  = Some (mkFile (js "TC-1_door.robot") (js "TC-1")
            (VStr (js "# Error: " ++ js "Failed to fetch")) 120).
Proof.
  edestruct (failed_improvement_can_be_applied
               (Scenarios.review_tab "old" "add a teardown" (VStr []))
               (mkFile (js "TC-1_door.robot") (js "TC-1")
                  (Scripted.str "old") 120)
               [Scenarios.network_down] [] Scenarios.network_down
               (mkError (js "Failed to fetch")))
    as (_ & Happlied).
  - reflexivity.
  - reflexivity.
  - reflexivity.
  - left. reflexivity.
  - exact Happlied.
Defined.

End ReviewMore.
